(** * A shallow embedding of the RingoJS Telegram bot client

    Sources embedded here: [lib/telegram.js] (the [MultipartStream]
    constructor, the [TelegramBot] constructor with [processExchange],
    [_request] and [_requestMultipart], and the operations attached to
    [TelegramBot.prototype]) and [lib/utils.js] ([getHighestUpdateId]).

    JavaScript values are an inductive type, thrown errors are one
    constructor per [throw] site, and code that talks to the network or to
    streams runs in a state monad over a [world] that records the requests
    issued and the streams closed.  Everything that the library imports from
    the platform ([JSON], [String], [request], [openRaw], ...) is a field of
    a [Host] record over which all results are quantified. *)

From Stdlib Require Import ZArith QArith Ascii Lia.
From stdpp Require Import base gmap sets list strings pretty.

Set Warnings "-register-all,-clear-no-such-hyp".

Local Open Scope string_scope.
Local Open Scope list_scope.
Local Open Scope Z_scope.

(** ** Values *)

(** A JavaScript string is a sequence of UTF-16 code units; [.length]
    counts them. *)
Definition jsstring : Type := list N.

Definition str (s : string) : jsstring :=
  Ascii.N_of_ascii <$> String.list_ascii_of_string s.

(** A JavaScript number.  Every finite double is a rational, so [Fin]
    covers all finite numbers; the three remaining values are explicit. *)
Inductive number : Type :=
| NaN
| PosInf
| NegInf
| Fin (q : Q).

(** An [io.Stream]; [text_mode] tells an [io.TextStream] (which inherits
    from [Stream]) from a raw binary stream. *)
Record stream : Type := Stream { sid : nat; text_mode : bool }.

Inductive JsVal : Type :=
| JUndefined
| JNull
| JBool (b : bool)
| JNum (n : number)
| JStr (s : jsstring)
| JArr (items : list JsVal)
| JObj (fields : list (string * JsVal))
| JMultipart (name : JsVal) (s : stream)   (* an instance of MultipartStream *)
| JStream (s : stream)                      (* an instance of io.Stream *)
| JPath (p : jsstring)                      (* an instance of fs.Path *)
| JModule (id : string).                    (* an imported module object *)

Definition num (z : Z) : JsVal := JNum (Fin (inject_Z z)).

(** [const objects = require("ringo/utils/objects")] *)
Definition objects : JsVal := JModule "ringo/utils/objects".

(** ** Primitive operators *)

(** [v == null] *)
Definition nullish (v : JsVal) : bool :=
  match v with
  | JUndefined | JNull => true
  | _ => false
  end.

Definition Qltb (x y : Q) : bool := Qnum x * QDen y <? Qnum y * QDen x.

Definition Qzero (x : Q) : bool := Qnum x =? 0.

(** ToBoolean: [if (v)], [v ? a : b], [!v] *)
Definition truthy (v : JsVal) : bool :=
  match v with
  | JUndefined | JNull => false
  | JBool b => b
  | JNum NaN => false
  | JNum (Fin q) => negb (Qzero q)
  | JNum _ => true
  | JStr s => negb (bool_decide (s = []))
  | _ => true
  end.

(** [v instanceof Object], [v instanceof Array]: false on every primitive. *)
Definition is_primitive (v : JsVal) : bool :=
  match v with
  | JUndefined | JNull | JBool _ | JNum _ | JStr _ => true
  | _ => false
  end.

Definition instanceof_Object (v : JsVal) : bool := negb (is_primitive v).

Definition instanceof_Array (v : JsVal) : bool :=
  match v with JArr _ => true | _ => false end.

Definition instanceof_Stream (v : JsVal) : bool :=
  match v with JStream _ => true | _ => false end.

Definition instanceof_Path (v : JsVal) : bool :=
  match v with JPath _ => true | _ => false end.

Definition instanceof_MultipartStream (v : JsVal) : bool :=
  match v with JMultipart _ _ => true | _ => false end.

(** [a < b] on numbers; any comparison with NaN is false. *)
Definition num_lt (a b : number) : bool :=
  match a, b with
  | NaN, _ | _, NaN => false
  | NegInf, NegInf => false
  | NegInf, _ => true
  | _, NegInf => false
  | PosInf, _ => false
  | Fin _, PosInf => true
  | Fin x, Fin y => Qltb x y
  end.

(** Code-unit-wise order of two strings. *)
Fixpoint str_lt (x y : jsstring) : bool :=
  match x, y with
  | _, [] => false
  | [], _ :: _ => true
  | a :: x', b :: y' =>
      if (a <? b)%N then true else if (b <? a)%N then false else str_lt x' y'
  end.

(** [Number.isSafeInteger(v)]: a number, finite, integral, of magnitude at
    most 2^53 - 1. *)
Definition Qintegral (q : Q) : bool := Qnum q mod QDen q =? 0.

Definition isSafeInteger (v : JsVal) : bool :=
  match v with
  | JNum (Fin q) => Qintegral q && (Z.abs (Qnum q / QDen q) <=? 2 ^ 53 - 1)
  | _ => false
  end.

(** ** Thrown values and completions *)

(** One constructor per [throw] site of the library, plus the exceptions the
    platform raises on its own. *)
Inductive thrown : Type :=
| InvalidMultipartStream                         (* "Invalid parameters for MultipartStream." *)
| StatusError (status : Z) (content : jsstring)  (* "Telegram Bot API returned status: " + status + "; " + content *)
| ApiCodeError (error_code description : JsVal)  (* "Telegram API error code " + error_code + "; " + description *)
| CouldNotParse (e : thrown)                     (* "Could not parse JSON response by Telegram Bot API: " + e *)
| InvalidPayload                                 (* "Invalid payload for Telegram API: " + typeof obj *)
| Insufficient (route : string)                  (* "Insufficient parameters [for] " + route *)
| SyntaxError                                    (* raised by JSON.parse *)
| TypeError                                      (* property read on null or undefined, call of a non-function *)
| ReferenceError (ident : string)                (* read of an unbound identifier *)
| IOError                                        (* raised by openRaw *)
| TransportException.                            (* raised by request *)

Inductive completion (A : Type) : Type :=
| Normal (a : A)
| Throw (e : thrown).
Arguments Normal {A} a.
Arguments Throw {A} e.

Definition cbind {A B} (c : completion A) (k : A -> completion B) : completion B :=
  match c with
  | Normal a => k a
  | Throw e => Throw e
  end.

(** [try { body } catch (e) { handler e }] *)
Definition try_catch {A} (body : completion A) (handler : thrown -> completion A)
  : completion A :=
  match body with
  | Normal a => Normal a
  | Throw e => handler e
  end.

(** [a || b] where evaluating an operand may throw. *)
Definition cor (a b : completion bool) : completion bool :=
  cbind a (fun x => if x then Normal true else b).

(** The four error kinds of the specification, read off the throw sites. *)
Inductive error_kind : Type :=
| ValidationError
| TransportError
| DecodeError
| ApiError
| PlatformError.

Definition kind_of (e : thrown) : error_kind :=
  match e with
  | InvalidMultipartStream | InvalidPayload | Insufficient _ => ValidationError
  | StatusError _ _ => TransportError
  | CouldNotParse _ => DecodeError
  | ApiCodeError _ _ => ApiError
  | _ => PlatformError
  end.

(** ** The platform *)

(** Bodies and requests handed to [request] of [ringo/httpclient]. *)
Inductive part : Type :=
| TextPart (data : jsstring + stream) (charset : string) (fileName : JsVal)
| BinaryPart (data : stream) (fileName : JsVal).

Inductive body : Type :=
| TextBody (text : jsstring)
| FormBody (parts : list (string * part)).

Record http_request : Type := HttpRequest {
  url : jsstring;
  method : string;
  data : body;
  headers : list (string * string)
}.

Record exchange : Type := Exchange { status : Z; content : jsstring }.

(** What one call of [request] does: it returns an exchange or raises, and
    it may have closed some of the streams it was given to read. *)
Record reply : Type := Reply { answer : option exchange; drained : list nat }.

Record Host : Type := {
  JSON_parse : jsstring -> option JsVal;     (* [None]: JSON.parse raises a SyntaxError *)
  JSON_stringify : JsVal -> jsstring;
  js_String : JsVal -> jsstring;             (* String(v) *)
  StringToNumber : jsstring -> number;       (* ToNumber on a string *)
  host_props : JsVal -> list (string * JsVal); (* enumerable properties of a platform object *)
  openRaw_fails : jsstring -> bool;          (* openRaw(path, "r") raises *)
  request : http_request -> reply
}.

(** The requests issued so far, the streams closed so far, and the next
    free stream identifier. *)
Record world : Type := World {
  sent : list http_request;
  closed : gset nat;
  next_sid : nat
}.

Definition M (A : Type) : Type := world -> completion A * world.

Definition ret {A} (a : A) : M A := fun w => (Normal a, w).

Definition throw {A} (e : thrown) : M A := fun w => (Throw e, w).

Definition bind {A B} (m : M A) (k : A -> M B) : M B :=
  fun w =>
    match m w with
    | (Normal a, w') => k a w'
    | (Throw e, w') => (Throw e, w')
    end.

Definition lift {A} (c : completion A) : M A := fun w => (c, w).

(** [try { body } finally { cleanup }]: the cleanup runs on both exits; the
    body's completion survives unless the cleanup itself throws. *)
Definition try_finally {A} (body : M A) (cleanup : M unit) : M A :=
  fun w =>
    let (r, w1) := body w in
    match cleanup w1 with
    | (Normal _, w2) => (r, w2)
    | (Throw e, w2) => (Throw e, w2)
    end.

Notation "'let*' x ':=' c 'in' k" := (bind c (fun x => k))
  (at level 10, x name, c at level 100, k at level 200).

Notation "'let!' x ':=' c 'in' k" := (cbind c (fun x => k))
  (at level 10, x name, c at level 100, k at level 200).

Notation "c1 ';;' c2" := (bind c1 (fun _ => c2))
  (at level 100, c2 at level 200, right associativity).

(** [for (let x of xs) body x] over a finite list, stopping at a throw. *)
Fixpoint for_each {A} (xs : list A) (body : A -> M unit) : M unit :=
  match xs with
  | [] => ret tt
  | x :: xs' => body x ;; for_each xs' body
  end.

(** [stream.closed()] and [stream.close()] *)
Definition stream_closed (s : stream) : M bool :=
  fun w => (Normal (bool_decide (sid s ∈ closed w)), w).

Definition stream_close (s : stream) : M unit :=
  fun w => (Normal tt, World (sent w) ({[sid s]} ∪ closed w) (next_sid w)).

(** ** Objects *)

Fixpoint obj_get {A} (fields : list (string * A)) (k : string) : option A :=
  match fields with
  | [] => None
  | (k', v) :: rest => if String.eqb k k' then Some v else obj_get rest k
  end.

(** [o[k] = v]: overwrite in place, or append a new property. *)
Fixpoint obj_set {A} (k : string) (v : A) (fields : list (string * A))
  : list (string * A) :=
  match fields with
  | [] => [(k, v)]
  | (k', v') :: rest =>
      if String.eqb k k' then (k, v) :: rest else (k', v') :: obj_set k v rest
  end.

Section Client.

Context (h : Host).

(** The own enumerable properties of a value, in [for ... in] order. *)
Definition own_props (v : JsVal) : list (string * JsVal) :=
  match v with
  | JObj fields => fields
  | JArr items => imap (fun i x => (pretty i, x)) items
  | JStr s => imap (fun i c => (pretty i, JStr [c])) s
  | JMultipart name s => [("name", name); ("stream", JStream s)]
  | JStream _ | JPath _ | JModule _ => host_props h v
  | _ => []
  end.

(** [v.k] for the data properties the library reads ([length], [ok],
    [result], [error_code], [description], [update_id]); none of them names
    a built-in method. *)
Definition get_prop (v : JsVal) (k : string) : completion JsVal :=
  match v with
  | JUndefined | JNull => Throw TypeError
  | JStr s =>
      Normal (if String.eqb k "length" then num (Z.of_nat (length s))
              else default JUndefined (obj_get (own_props v) k))
  | JArr items =>
      Normal (if String.eqb k "length" then num (Z.of_nat (length items))
              else default JUndefined (obj_get (own_props v) k))
  | _ => Normal (default JUndefined (obj_get (own_props v) k))
  end.

(** ToPrimitive: an object without [valueOf] of its own goes through
    [toString]. *)
Definition ToPrimitive (v : JsVal) : JsVal :=
  if is_primitive v then v else JStr (js_String h v).

Definition ToNumber (v : JsVal) : number :=
  match v with
  | JUndefined => NaN
  | JNull => Fin 0
  | JBool b => Fin (if b then 1 else 0)
  | JNum n => n
  | JStr s => StringToNumber h s
  | _ => StringToNumber h (js_String h v)
  end.

(** [a < b] and [a > b]: two strings compare by code units, anything else
    as numbers. *)
Definition js_lt (a b : JsVal) : bool :=
  match ToPrimitive a, ToPrimitive b with
  | JStr x, JStr y => str_lt x y
  | pa, pb => num_lt (ToNumber pa) (ToNumber pb)
  end.

Definition js_gt (a b : JsVal) : bool := js_lt b a.

(** [v === true] *)
Definition strict_eq_true (v : JsVal) : bool :=
  match v with JBool true => true | _ => false end.

(** [a || b] on values *)
Definition js_or (a b : JsVal) : JsVal := if truthy a then a else b.

(** [v.length > n], which throws when [v] is null or undefined *)
Definition length_exceeds (v : JsVal) (n : Z) : completion bool :=
  let! len := get_prop v "length" in Normal (js_gt len (num n)).

(** Modelled from the spec: [merge] of the imported [ringo/utils/objects]
    module, whose source is not part of this library.  It builds a fresh
    object from the properties of the base and then of the optional
    mapping, so that on a key collision the optional value overrides the
    base value. *)
Definition merge (base options : JsVal) : JsVal :=
  JObj (fold_left (fun acc kv => obj_set kv.1 kv.2 acc)
          (own_props base ++ own_props options) []).

(** *** lib/telegram.js: MultipartStream *)

Definition openRaw (source : JsVal) : M stream :=
  match source with
  | JPath p =>
      if openRaw_fails h p then throw IOError
      else fun w =>
             (Normal (Stream (next_sid w) false),
              World (sent w) (closed w) (S (next_sid w)))
  | _ => throw TypeError
  end.

Definition MultipartStream (name source : JsVal) : M JsVal :=
  if nullish name
     || (negb (instanceof_Stream source) && negb (instanceof_Path source))
  then throw InvalidMultipartStream
  else
    match source with
    | JStream s => ret (JMultipart name s)
    | _ => let* s := openRaw source in ret (JMultipart name s)
    end.

(** *** lib/telegram.js: TelegramBot *)

Context (token : jsstring).

Definition baseURI : jsstring := str "https://api.telegram.org/bot" ++ token.

Definition processExchange (ex : exchange) : completion JsVal :=
  if negb (status ex =? 200)
  then Throw (StatusError (status ex) (content ex))
  else
    try_catch
      (let! resp := match JSON_parse h (content ex) with
                    | Some v => Normal v
                    | None => Throw SyntaxError
                    end in
       let! ok := get_prop resp "ok" in
       if strict_eq_true ok then get_prop resp "result"
       else
         let! error_code := get_prop resp "error_code" in
         let! description := get_prop resp "description" in
         Throw (ApiCodeError error_code description))
      (fun e => Throw (CouldNotParse e)).

(** One call of the platform's [request]. *)
Definition perform (req : http_request) : M exchange :=
  fun w =>
    let r := request h req in
    let w' := World (sent w ++ [req]) (list_to_set (drained r) ∪ closed w)
                (next_sid w) in
    match answer r with
    | Some ex => (Normal ex, w')
    | None => (Throw TransportException, w')
    end.

(** [payload != null && !payload instanceof Object]: the negation binds
    tighter than [instanceof], so a boolean is tested. *)
Definition invalid_payload (payload : JsVal) : bool :=
  negb (nullish payload) && instanceof_Object (JBool (negb (truthy payload))).

(** The argument of [request] in [_request] *)
Definition json_post (path : string) (payload : JsVal) : http_request :=
  {| url := baseURI ++ str path;
     method := "POST";
     data := TextBody (if truthy payload then JSON_stringify h payload else []);
     headers := [("Cache-Control", "no-cache, no-store");
                 ("Content-Type", "application/json; charset=utf-8")] |}.

Definition _request (path : string) (payload : JsVal) : M JsVal :=
  if invalid_payload payload then throw InvalidPayload
  else
    let* ex := perform (json_post path payload) in
    lift (processExchange ex).

Definition to_part (v : JsVal) : part :=
  match v with
  | JMultipart name s =>
      if text_mode s then TextPart (inr s) "utf-8" name else BinaryPart s name
  | _ => TextPart (inl (js_String h v)) "utf-8" JUndefined
  end.

Definition close_if_open (v : JsVal) : M unit :=
  match v with
  | JMultipart _ s =>
      let* c := stream_closed s in
      if negb c then stream_close s else ret tt
  | _ => ret tt
  end.

(** The argument of [request] in [_requestMultipart] *)
Definition multipart_post (path : string) (multipartPayload : list (string * part))
  : http_request :=
  {| url := baseURI ++ str path;
     method := "POST";
     data := FormBody multipartPayload;
     headers := [("Cache-Control", "no-cache, no-store");
                 ("Content-Type", "multipart/form-data")] |}.

(** The first loop of [_requestMultipart] *)
Definition multipart_parts (payload : JsVal) : list (string * part) :=
  fold_left (fun acc kv => obj_set kv.1 (to_part kv.2) acc) (own_props payload) [].

Definition _requestMultipart (path : string) (payload : JsVal) : M JsVal :=
  if invalid_payload payload then throw InvalidPayload
  else
    let multipartPayload := multipart_parts payload in
    try_finally
      (let* ex := perform (multipart_post path multipartPayload) in
       lift (processExchange ex))
      (for_each (own_props payload) (fun kv => close_if_open kv.2)).

(** *** lib/telegram.js: the operations on TelegramBot.prototype

    A parameter the caller leaves out is [JUndefined]. *)

Definition setWebhook (url cert : JsVal) : M JsVal :=
  if negb (nullish cert)
  then _request "/setWebhook" (JObj [("url", url)])
  else _requestMultipart "/setWebhook" (JObj [("url", url); ("cert", cert)]).

Definition getUpdates (options : JsVal) : M JsVal :=
  _request "/getUpdates" options.

Definition getMe : M JsVal := _request "/getMe" JUndefined.

Definition sendMessage (chatId text options : JsVal) : M JsVal :=
  if nullish chatId || nullish text
  then throw (Insufficient "/sendMessage")
  else _request "/sendMessage"
         (merge (JObj [("chat_id", chatId); ("text", text)]) options).

Definition answerInlineQuery (inlineQueryId results options : JsVal) : M JsVal :=
  if nullish inlineQueryId || nullish results
     || instanceof_Array (JBool (negb (truthy results)))
  then throw (Insufficient "/answerInlineQuery")
  else _request "/answerInlineQuery"
         (merge (JObj [("inline_query_id", inlineQueryId); ("results", results)]) options).

Definition forwardMessage (chatId fromChatId messageId options : JsVal) : M JsVal :=
  if nullish chatId || nullish fromChatId || nullish messageId
  then throw (Insufficient "/forwardMessage")
  else _request "/forwardMessage"
         (merge (JObj [("chat_id", chatId); ("from_chat_id", fromChatId); ("message_id", messageId)]) options).

Definition sendPhoto (chatId photo options : JsVal) : M JsVal :=
  if nullish chatId || nullish photo
  then throw (Insufficient "/sendPhoto")
  else _requestMultipart "/sendPhoto"
         (merge (JObj [("chat_id", chatId); ("photo", photo)]) options).

Definition sendAudio (chatId audio options : JsVal) : M JsVal :=
  if nullish chatId || nullish audio
  then throw (Insufficient "/sendAudio")
  else _requestMultipart "/sendAudio"
         (merge (JObj [("chat_id", chatId); ("audio", audio)]) options).

Definition sendDocument (chatId document options : JsVal) : M JsVal :=
  if nullish chatId || nullish document
  then throw (Insufficient "/sendDocument")
  else _requestMultipart "/sendDocument"
         (merge (JObj [("chat_id", chatId); ("document", document)]) options).

Definition sendSticker (chatId sticker options : JsVal) : M JsVal :=
  if nullish chatId || nullish sticker
  then throw (Insufficient "/sendSticker")
  else _requestMultipart "/sendSticker"
         (merge (JObj [("chat_id", chatId); ("sticker", sticker)]) options).

Definition sendVideo (chatId video options : JsVal) : M JsVal :=
  if nullish chatId || nullish video
  then throw (Insufficient "/sendVideo")
  else _requestMultipart "/sendVideo"
         (merge (JObj [("chat_id", chatId); ("video", video)]) options).

Definition sendVideoNote (chatId videoNote options : JsVal) : M JsVal :=
  if nullish chatId || nullish videoNote
  then throw (Insufficient "/sendVideoNote")
  else _requestMultipart "/sendVideoNote"
         (merge (JObj [("chat_id", chatId); ("video_note", videoNote)]) options).

Definition sendVoice (chatId voice options : JsVal) : M JsVal :=
  if nullish chatId || nullish voice
  then throw (Insufficient "/sendVoice")
  else _requestMultipart "/sendVoice"
         (merge (JObj [("chat_id", chatId); ("voice", voice)]) options).

Definition sendLocation (chatId latitude longitude options : JsVal) : M JsVal :=
  if nullish chatId || nullish latitude || nullish longitude
  then throw (Insufficient "/sendLocation")
  else _request "/sendLocation"
         (merge (JObj [("chat_id", chatId); ("latitude", latitude); ("longitude", longitude)]) options).

Definition sendVenue (chatId latitude longitude title address options : JsVal) : M JsVal :=
  if nullish chatId || nullish latitude || nullish longitude || nullish title || nullish address
  then throw (Insufficient "/sendVenue")
  else _request "/sendVenue"
         (merge (JObj [("chat_id", chatId); ("latitude", latitude); ("longitude", longitude); ("title", title); ("address", address)]) options).

Definition sendContact (chatId phoneNumber firstName options : JsVal) : M JsVal :=
  if nullish chatId || nullish phoneNumber || nullish firstName
  then throw (Insufficient "/sendContact")
  else _request "/sendContact"
         (merge (JObj [("chat_id", chatId); ("phone_number", phoneNumber); ("first_name", firstName)]) options).

Definition sendChatAction (chatId action : JsVal) : M JsVal :=
  if nullish chatId || nullish action
  then throw (Insufficient "/sendChatAction")
  else _request "/sendChatAction"
         (JObj [("chat_id", chatId); ("action", action)]).

Definition getUserProfilePhotos (userId options : JsVal) : M JsVal :=
  if nullish userId
  then throw (Insufficient "/getUserProfilePhotos")
  else _request "/getUserProfilePhotos"
         (merge (JObj [("user_id", userId)]) options).

(** The identifiers a function body of the module can read besides its own
    parameters: the module-level [let] and [const] bindings.  Constructors
    and functions are [Callable]; neither the module nor the platform's
    global scope binds [getFile]. *)
Inductive binding : Type :=
| Value (v : JsVal)
| Callable.

Definition module_scope : list (string * binding) :=
  [("Stream", Callable); ("TextStream", Callable); ("Path", Callable);
   ("openRaw", Callable); ("request", Callable); ("TextPart", Callable);
   ("BinaryPart", Callable); ("objects", Value objects);
   ("MultipartStream", Callable); ("TelegramBot", Callable)].

Definition resolve (locals : list (string * binding)) (x : string)
  : completion binding :=
  match obj_get (locals ++ module_scope) x with
  | Some b => Normal b
  | None => Throw (ReferenceError x)
  end.

Definition binding_nullish (b : binding) : bool :=
  match b with
  | Value v => nullish v
  | Callable => false
  end.

(** The guard reads the identifier [getFile], not the parameter. *)
Definition getFile (fileId : JsVal) : M JsVal :=
  let* g := lift (resolve [("fileId", Value fileId)] "getFile") in
  if binding_nullish g then throw (Insufficient "/getFile")
  else _request "/getFile" (JObj [("file_id", fileId)]).

Definition kickChatMember (chatId userId : JsVal) : M JsVal :=
  if nullish chatId || nullish userId
  then throw (Insufficient "/kickChatMember")
  else _request "/kickChatMember"
         (JObj [("chat_id", chatId); ("user_id", userId)]).

Definition leaveChat (chatId : JsVal) : M JsVal :=
  if nullish chatId
  then throw (Insufficient "/leaveChat")
  else _request "/leaveChat"
         (JObj [("chat_id", chatId)]).

Definition unbanChatMember (chatId userId : JsVal) : M JsVal :=
  if nullish chatId || nullish userId
  then throw (Insufficient "/unbanChatMember")
  else _request "/unbanChatMember"
         (JObj [("chat_id", chatId); ("user_id", userId)]).

Definition getChat (chatId : JsVal) : M JsVal :=
  if nullish chatId
  then throw (Insufficient "/getChat")
  else _request "/getChat"
         (JObj [("chat_id", chatId)]).

Definition getChatAdministrators (chatId : JsVal) : M JsVal :=
  if nullish chatId
  then throw (Insufficient "/getChatAdministrators")
  else _request "/getChatAdministrators"
         (JObj [("chat_id", chatId)]).

Definition getChatMembersCount (chatId : JsVal) : M JsVal :=
  if nullish chatId
  then throw (Insufficient "/getChatMembersCount")
  else _request "/getChatMembersCount"
         (JObj [("chat_id", chatId)]).

Definition getChatMember (chatId userId : JsVal) : M JsVal :=
  if nullish chatId || nullish userId
  then throw (Insufficient "/getChatMember")
  else _request "/getChatMember"
         (JObj [("chat_id", chatId); ("user_id", userId)]).

Definition answerCallbackQuery (callbackQueryId options : JsVal) : M JsVal :=
  if nullish callbackQueryId
  then throw (Insufficient "/answerCallbackQuery")
  else _request "/answerCallbackQuery"
         (merge (JObj [("callback_query_id", callbackQueryId)]) options).

Definition editMessageText (text options : JsVal) : M JsVal :=
  if nullish text || nullish options
  then throw (Insufficient "/editMessageText")
  else _request "/editMessageText" (merge (JObj [("text", text)]) options).

Definition editMessageCaption (options : JsVal) : M JsVal :=
  if truthy options then throw (Insufficient "/editMessageCaption")
  else _request "/editMessageCaption" objects.

Definition editMessageReplyMarkup (options : JsVal) : M JsVal :=
  if nullish options then throw (Insufficient "/editMessageReplyMarkup")
  else _request "/editMessageReplyMarkup" options.

Definition getWebhookInfo : M JsVal := _request "/getWebhookInfo" JUndefined.

Definition deleteMessage (chatId messageId : JsVal) : M JsVal :=
  if nullish chatId || nullish messageId
  then throw (Insufficient "/deleteMessage")
  else _request "/deleteMessage"
         (JObj [("chat_id", chatId); ("message_id", messageId)]).

Definition restrictChatMember (chatId userId options : JsVal) : M JsVal :=
  if nullish chatId || nullish userId
  then throw (Insufficient "/restrictChatMember")
  else _request "/restrictChatMember"
         (merge (JObj [("chat_id", chatId); ("user_id", userId)]) (js_or options (JObj []))).

Definition promoteChatMember (chatId userId options : JsVal) : M JsVal :=
  if nullish chatId || nullish userId
  then throw (Insufficient "/promoteChatMember")
  else _request "/promoteChatMember"
         (merge (JObj [("chat_id", chatId); ("user_id", userId)]) (js_or options (JObj []))).

Definition exportChatInviteLink (chatId : JsVal) : M JsVal :=
  if nullish chatId
  then throw (Insufficient "/exportChatInviteLink")
  else _request "/exportChatInviteLink"
         (JObj [("chat_id", chatId)]).

Definition setChatPhoto (chatId photo : JsVal) : M JsVal :=
  if nullish chatId || nullish photo
  then throw (Insufficient "/setChatPhoto")
  else _requestMultipart "/setChatPhoto"
         (JObj [("chat_id", chatId); ("photo", photo)]).

Definition deleteChatPhoto (chatId : JsVal) : M JsVal :=
  if nullish chatId
  then throw (Insufficient "/deleteChatPhoto")
  else _request "/deleteChatPhoto"
         (JObj [("chat_id", chatId)]).

Definition setChatTitle (chatId title : JsVal) : M JsVal :=
  let* bad := lift (cor (Normal (nullish chatId))
                   (cor (Normal (nullish title)) (length_exceeds title 255))) in
  if bad then throw (Insufficient "/setChatTitle")
  else _request "/setChatTitle" (JObj [("chat_id", chatId); ("title", title)]).

Definition setChatDescription (chatId description : JsVal) : M JsVal :=
  let* bad := lift (cor (Normal (nullish chatId))
                   (cor (Normal (nullish description))
                      (length_exceeds description 255))) in
  if bad then throw (Insufficient "/setChatDescription")
  else _request "/setChatDescription"
         (JObj [("chat_id", chatId); ("description", description)]).

Definition pinChatMessage (chatId messageId options : JsVal) : M JsVal :=
  if nullish chatId || nullish messageId
  then throw (Insufficient "/pinChatMessage")
  else _request "/pinChatMessage"
         (merge (JObj [("chat_id", chatId); ("message_id", messageId)]) (js_or options (JObj []))).

Definition unpinChatMessage (chatId : JsVal) : M JsVal :=
  if nullish chatId
  then throw (Insufficient "/unpinChatMessage")
  else _request "/unpinChatMessage"
         (JObj [("chat_id", chatId)]).

Definition getStickerSet (name : JsVal) : M JsVal :=
  if nullish name
  then throw (Insufficient "/getStickerSet")
  else _request "/getStickerSet"
         (JObj [("name", name)]).

Definition uploadStickerFile (userId pngSticker : JsVal) : M JsVal :=
  if nullish userId || nullish pngSticker
  then throw (Insufficient "/uploadStickerFile")
  else _requestMultipart "/uploadStickerFile"
         (JObj [("user_id", userId); ("png_sticker", pngSticker)]).

Definition createNewStickerSet
  (userId name title pngSticker emojis options : JsVal) : M JsVal :=
  let* bad := lift (cor (Normal (nullish userId))
                   (cor (Normal (nullish name))
                   (cor (length_exceeds name 64)
                   (cor (Normal (nullish title))
                   (cor (length_exceeds title 64)
                   (cor (Normal (nullish pngSticker))
                        (Normal (nullish emojis)))))))) in
  if bad then throw (Insufficient "/createNewStickerSet")
  else _requestMultipart "/createNewStickerSet"
         (merge (JObj [("user_id", userId); ("name", name); ("title", title);
                       ("png_sticker", pngSticker); ("emojis", emojis)])
            options).

Definition addStickerToSet
  (userId name title pngSticker emojis options : JsVal) : M JsVal :=
  let* bad := lift (cor (Normal (nullish userId))
                   (cor (Normal (nullish name))
                   (cor (length_exceeds name 64)
                   (cor (Normal (nullish title))
                   (cor (length_exceeds title 64)
                   (cor (Normal (nullish pngSticker))
                        (Normal (nullish emojis)))))))) in
  if bad then throw (Insufficient "/addStickerToSet")
  else _requestMultipart "/addStickerToSet"
         (merge (JObj [("user_id", userId); ("name", name); ("title", title);
                       ("png_sticker", pngSticker); ("emojis", emojis)])
            options).

Definition setStickerPositionInSet (sticker position : JsVal) : M JsVal :=
  if nullish sticker || negb (isSafeInteger position) || js_lt position (num 0)
  then throw (Insufficient "/setStickerPositionInSet")
  else _request "/setStickerPositionInSet"
         (JObj [("sticker", sticker); ("position", position)]).

Definition deleteStickerFromSet (sticker : JsVal) : M JsVal :=
  if nullish sticker
  then throw (Insufficient "/deleteStickerFromSet")
  else _request "/deleteStickerFromSet"
         (JObj [("sticker", sticker)]).

(** *** The catalogue of operations

    One constructor per method of [TelegramBot.prototype], in source order. *)
Inductive operation : Type :=
| op_setWebhook
| op_getUpdates
| op_getMe
| op_sendMessage
| op_answerInlineQuery
| op_forwardMessage
| op_sendPhoto
| op_sendAudio
| op_sendDocument
| op_sendSticker
| op_sendVideo
| op_sendVideoNote
| op_sendVoice
| op_sendLocation
| op_sendVenue
| op_sendContact
| op_sendChatAction
| op_getUserProfilePhotos
| op_getFile
| op_kickChatMember
| op_leaveChat
| op_unbanChatMember
| op_getChat
| op_getChatAdministrators
| op_getChatMembersCount
| op_getChatMember
| op_answerCallbackQuery
| op_editMessageText
| op_editMessageCaption
| op_editMessageReplyMarkup
| op_getWebhookInfo
| op_deleteMessage
| op_restrictChatMember
| op_promoteChatMember
| op_exportChatInviteLink
| op_setChatPhoto
| op_deleteChatPhoto
| op_setChatTitle
| op_setChatDescription
| op_pinChatMessage
| op_unpinChatMessage
| op_getStickerSet
| op_uploadStickerFile
| op_createNewStickerSet
| op_addStickerToSet
| op_setStickerPositionInSet
| op_deleteStickerFromSet.

Definition route (op : operation) : string :=
  match op with
  | op_setWebhook => "/setWebhook"
  | op_getUpdates => "/getUpdates"
  | op_getMe => "/getMe"
  | op_sendMessage => "/sendMessage"
  | op_answerInlineQuery => "/answerInlineQuery"
  | op_forwardMessage => "/forwardMessage"
  | op_sendPhoto => "/sendPhoto"
  | op_sendAudio => "/sendAudio"
  | op_sendDocument => "/sendDocument"
  | op_sendSticker => "/sendSticker"
  | op_sendVideo => "/sendVideo"
  | op_sendVideoNote => "/sendVideoNote"
  | op_sendVoice => "/sendVoice"
  | op_sendLocation => "/sendLocation"
  | op_sendVenue => "/sendVenue"
  | op_sendContact => "/sendContact"
  | op_sendChatAction => "/sendChatAction"
  | op_getUserProfilePhotos => "/getUserProfilePhotos"
  | op_getFile => "/getFile"
  | op_kickChatMember => "/kickChatMember"
  | op_leaveChat => "/leaveChat"
  | op_unbanChatMember => "/unbanChatMember"
  | op_getChat => "/getChat"
  | op_getChatAdministrators => "/getChatAdministrators"
  | op_getChatMembersCount => "/getChatMembersCount"
  | op_getChatMember => "/getChatMember"
  | op_answerCallbackQuery => "/answerCallbackQuery"
  | op_editMessageText => "/editMessageText"
  | op_editMessageCaption => "/editMessageCaption"
  | op_editMessageReplyMarkup => "/editMessageReplyMarkup"
  | op_getWebhookInfo => "/getWebhookInfo"
  | op_deleteMessage => "/deleteMessage"
  | op_restrictChatMember => "/restrictChatMember"
  | op_promoteChatMember => "/promoteChatMember"
  | op_exportChatInviteLink => "/exportChatInviteLink"
  | op_setChatPhoto => "/setChatPhoto"
  | op_deleteChatPhoto => "/deleteChatPhoto"
  | op_setChatTitle => "/setChatTitle"
  | op_setChatDescription => "/setChatDescription"
  | op_pinChatMessage => "/pinChatMessage"
  | op_unpinChatMessage => "/unpinChatMessage"
  | op_getStickerSet => "/getStickerSet"
  | op_uploadStickerFile => "/uploadStickerFile"
  | op_createNewStickerSet => "/createNewStickerSet"
  | op_addStickerToSet => "/addStickerToSet"
  | op_setStickerPositionInSet => "/setStickerPositionInSet"
  | op_deleteStickerFromSet => "/deleteStickerFromSet"
  end.

(** The number of leading parameters that are required: those the JSDoc
    does not mark optional and the guard is written for.  For
    [editMessageText], [editMessageCaption] and [editMessageReplyMarkup] the
    guard is about the [options] argument itself. *)
Definition required (op : operation) : nat :=
  match op with
  | op_getUpdates | op_getMe | op_getWebhookInfo => 0%nat
  | op_setWebhook | op_getUserProfilePhotos | op_getFile | op_leaveChat | op_getChat | op_getChatAdministrators | op_getChatMembersCount | op_answerCallbackQuery | op_editMessageCaption | op_editMessageReplyMarkup | op_exportChatInviteLink | op_deleteChatPhoto | op_unpinChatMessage | op_getStickerSet | op_deleteStickerFromSet => 1%nat
  | op_sendMessage | op_answerInlineQuery | op_sendPhoto | op_sendAudio | op_sendDocument | op_sendSticker | op_sendVideo | op_sendVideoNote | op_sendVoice | op_sendChatAction | op_kickChatMember | op_unbanChatMember | op_getChatMember | op_editMessageText | op_deleteMessage | op_restrictChatMember | op_promoteChatMember | op_setChatPhoto | op_setChatTitle | op_setChatDescription | op_pinChatMessage | op_uploadStickerFile | op_setStickerPositionInSet => 2%nat
  | op_forwardMessage | op_sendLocation | op_sendContact => 3%nat
  | op_sendVenue | op_createNewStickerSet | op_addStickerToSet => 5%nat
  end.

(** [bot.op(args...)]: a positional argument the caller leaves out is
    [undefined]. *)
Definition call (op : operation) (args : list JsVal) : M JsVal :=
  let a := fun i => nth i args JUndefined in
  match op with
  | op_setWebhook => setWebhook (a 0%nat) (a 1%nat)
  | op_getUpdates => getUpdates (a 0%nat)
  | op_getMe => getMe
  | op_sendMessage => sendMessage (a 0%nat) (a 1%nat) (a 2%nat)
  | op_answerInlineQuery => answerInlineQuery (a 0%nat) (a 1%nat) (a 2%nat)
  | op_forwardMessage => forwardMessage (a 0%nat) (a 1%nat) (a 2%nat) (a 3%nat)
  | op_sendPhoto => sendPhoto (a 0%nat) (a 1%nat) (a 2%nat)
  | op_sendAudio => sendAudio (a 0%nat) (a 1%nat) (a 2%nat)
  | op_sendDocument => sendDocument (a 0%nat) (a 1%nat) (a 2%nat)
  | op_sendSticker => sendSticker (a 0%nat) (a 1%nat) (a 2%nat)
  | op_sendVideo => sendVideo (a 0%nat) (a 1%nat) (a 2%nat)
  | op_sendVideoNote => sendVideoNote (a 0%nat) (a 1%nat) (a 2%nat)
  | op_sendVoice => sendVoice (a 0%nat) (a 1%nat) (a 2%nat)
  | op_sendLocation => sendLocation (a 0%nat) (a 1%nat) (a 2%nat) (a 3%nat)
  | op_sendVenue => sendVenue (a 0%nat) (a 1%nat) (a 2%nat) (a 3%nat) (a 4%nat) (a 5%nat)
  | op_sendContact => sendContact (a 0%nat) (a 1%nat) (a 2%nat) (a 3%nat)
  | op_sendChatAction => sendChatAction (a 0%nat) (a 1%nat)
  | op_getUserProfilePhotos => getUserProfilePhotos (a 0%nat) (a 1%nat)
  | op_getFile => getFile (a 0%nat)
  | op_kickChatMember => kickChatMember (a 0%nat) (a 1%nat)
  | op_leaveChat => leaveChat (a 0%nat)
  | op_unbanChatMember => unbanChatMember (a 0%nat) (a 1%nat)
  | op_getChat => getChat (a 0%nat)
  | op_getChatAdministrators => getChatAdministrators (a 0%nat)
  | op_getChatMembersCount => getChatMembersCount (a 0%nat)
  | op_getChatMember => getChatMember (a 0%nat) (a 1%nat)
  | op_answerCallbackQuery => answerCallbackQuery (a 0%nat) (a 1%nat)
  | op_editMessageText => editMessageText (a 0%nat) (a 1%nat)
  | op_editMessageCaption => editMessageCaption (a 0%nat)
  | op_editMessageReplyMarkup => editMessageReplyMarkup (a 0%nat)
  | op_getWebhookInfo => getWebhookInfo
  | op_deleteMessage => deleteMessage (a 0%nat) (a 1%nat)
  | op_restrictChatMember => restrictChatMember (a 0%nat) (a 1%nat) (a 2%nat)
  | op_promoteChatMember => promoteChatMember (a 0%nat) (a 1%nat) (a 2%nat)
  | op_exportChatInviteLink => exportChatInviteLink (a 0%nat)
  | op_setChatPhoto => setChatPhoto (a 0%nat) (a 1%nat)
  | op_deleteChatPhoto => deleteChatPhoto (a 0%nat)
  | op_setChatTitle => setChatTitle (a 0%nat) (a 1%nat)
  | op_setChatDescription => setChatDescription (a 0%nat) (a 1%nat)
  | op_pinChatMessage => pinChatMessage (a 0%nat) (a 1%nat) (a 2%nat)
  | op_unpinChatMessage => unpinChatMessage (a 0%nat)
  | op_getStickerSet => getStickerSet (a 0%nat)
  | op_uploadStickerFile => uploadStickerFile (a 0%nat) (a 1%nat)
  | op_createNewStickerSet => createNewStickerSet (a 0%nat) (a 1%nat) (a 2%nat) (a 3%nat) (a 4%nat) (a 5%nat)
  | op_addStickerToSet => addStickerToSet (a 0%nat) (a 1%nat) (a 2%nat) (a 3%nat) (a 4%nat) (a 5%nat)
  | op_setStickerPositionInSet => setStickerPositionInSet (a 0%nat) (a 1%nat)
  | op_deleteStickerFromSet => deleteStickerFromSet (a 0%nat)
  end.

End Client.

(** ** lib/utils.js *)

Section Utils.

Context (h : Host).

(** [updates.reduce(function(max, update) { ... }, 0)]; a value of this
    model other than an array has no callable [reduce]. *)
Definition getHighestUpdateId (updates : JsVal) : completion JsVal :=
  match updates with
  | JArr items =>
      fold_left
        (fun acc update =>
           let! max := acc in
           let! id := get_prop h update "update_id" in
           Normal (if js_gt h id max then id else max))
        items (Normal (num 0))
  | _ => Throw TypeError
  end.

End Utils.

Section UpdateHelpers.

Context (h : Host).

(** [v !== undefined] *)
Definition defined (v : JsVal) : bool :=
  match v with JUndefined => false | _ => true end.

Definition getChatIdFromMessage (envelope : JsVal) : completion JsVal :=
  let! message := get_prop h envelope "message" in
  if defined message then
    let! chat := get_prop h message "chat" in
    get_prop h chat "id"
  else
    let! chat := get_prop h envelope "chat" in
    if defined chat then get_prop h chat "id"
    else Normal JNull.

Definition getInlineQuery (update : JsVal) : completion JsVal :=
  get_prop h update "inline_query".

Definition isInlineQuery (update : JsVal) : completion bool :=
  let! inline_query := get_prop h update "inline_query" in
  Normal (defined inline_query).

End UpdateHelpers.

(** ** A concrete platform

    Used to run the library on concrete inputs. *)

Definition quoted (s : string) : jsstring := [34%N] ++ str s ++ [34%N].

(** [{"ok":true,"result":{"id":1}}] *)
Definition ok_body : jsstring :=
  str "{" ++ quoted "ok" ++ str ":true," ++ quoted "result" ++ str ":{"
    ++ quoted "id" ++ str ":1}}".

(** [{"ok":false,"error_code":400,"description":"Bad Request"}] *)
Definition error_body : jsstring :=
  str "{" ++ quoted "ok" ++ str ":false," ++ quoted "error_code" ++ str ":400,"
    ++ quoted "description" ++ str ":" ++ quoted "Bad Request" ++ str "}".

Definition ok_envelope : JsVal :=
  JObj [("ok", JBool true); ("result", JObj [("id", num 1)])].

Definition error_envelope : JsVal :=
  JObj [("ok", JBool false); ("error_code", num 400);
        ("description", JStr (str "Bad Request"))].

(** A platform whose server answers every request with status 200 and the
    success envelope, whose JSON parser knows the two bodies above, and
    whose transport leaves the streams alone. *)
Definition sample_host : Host :=
  {| JSON_parse := fun s =>
       if bool_decide (s = ok_body) then Some ok_envelope
       else if bool_decide (s = error_body) then Some error_envelope
       else None;
     JSON_stringify := fun _ => str "{}";
     js_String := fun _ => str "[object Object]";
     StringToNumber := fun _ => NaN;
     host_props := fun _ => [];
     openRaw_fails := fun _ => false;
     request := fun _ => Reply (Some (Exchange 200 ok_body)) [] |}.

Definition sample_token : jsstring := str "123:ABC".

Definition fresh_world : world := World [] ∅ 0.
(** ** Vocabulary of the statements *)

(** The stream identifiers held by the upload descriptors among the
    properties of a payload. *)
Definition upload_sids (kvs : list (string * JsVal)) : list nat :=
  omap (fun kv => match kv.2 with
                  | JMultipart _ s => Some (sid s)
                  | _ => None
                  end) kvs.

(** What the specification calls a non-integer and a negative position. *)
Definition is_integer (v : JsVal) : bool :=
  match v with
  | JNum (Fin q) => Qintegral q
  | _ => false
  end.

Definition is_negative (v : JsVal) : bool :=
  match v with
  | JNum NegInf => true
  | JNum (Fin q) => Qltb q (inject_Z 0)
  | _ => false
  end.

(** The two dispatch helpers, by name. *)
Inductive transport : Type :=
| JsonPath
| MultipartPath.

Definition dispatch (h : Host) (token : jsstring) (t : transport)
  : string → JsVal → M JsVal :=
  match t with
  | JsonPath => _request h token
  | MultipartPath => _requestMultipart h token
  end.

(** The operations with an [options] parameter, all 24 of them, with the
    wire names of the parameters that precede it and the dispatch helper
    each one calls. *)
Definition takes_options (op : operation) : bool :=
  match op with
  | op_getUpdates
  | op_sendMessage | op_answerInlineQuery | op_forwardMessage | op_sendPhoto
  | op_sendAudio | op_sendDocument | op_sendSticker | op_sendVideo
  | op_sendVideoNote | op_sendVoice | op_sendLocation | op_sendVenue
  | op_sendContact | op_getUserProfilePhotos | op_answerCallbackQuery
  | op_editMessageText | op_editMessageCaption | op_editMessageReplyMarkup
  | op_restrictChatMember | op_promoteChatMember | op_pinChatMessage
  | op_createNewStickerSet | op_addStickerToSet => true
  | _ => false
  end.

(** What an operation does with its [options]: it passes
    [objects.merge(base, options)] to its dispatch helper, it passes
    [options] itself, there being no base, or, for [editMessageCaption],
    it throws when given any and passes the [objects] module otherwise. *)
Inductive options_use : Type :=
| MergesOptions
| ForwardsOptions
| RefusesOptions.

Definition use_of_options (op : operation) : options_use :=
  match op with
  | op_getUpdates | op_editMessageReplyMarkup => ForwardsOptions
  | op_editMessageCaption => RefusesOptions
  | _ => MergesOptions
  end.

(** The two operations whose guard rejects a call without [options]. *)
Definition options_required (op : operation) : bool :=
  match op with
  | op_editMessageText | op_editMessageReplyMarkup => true
  | _ => false
  end.

Definition wire_keys (op : operation) : list string :=
  match op with
  | op_sendMessage => ["chat_id"; "text"]
  | op_answerInlineQuery => ["inline_query_id"; "results"]
  | op_forwardMessage => ["chat_id"; "from_chat_id"; "message_id"]
  | op_sendPhoto => ["chat_id"; "photo"]
  | op_sendAudio => ["chat_id"; "audio"]
  | op_sendDocument => ["chat_id"; "document"]
  | op_sendSticker => ["chat_id"; "sticker"]
  | op_sendVideo => ["chat_id"; "video"]
  | op_sendVideoNote => ["chat_id"; "video_note"]
  | op_sendVoice => ["chat_id"; "voice"]
  | op_sendLocation => ["chat_id"; "latitude"; "longitude"]
  | op_sendVenue => ["chat_id"; "latitude"; "longitude"; "title"; "address"]
  | op_sendContact => ["chat_id"; "phone_number"; "first_name"]
  | op_getUserProfilePhotos => ["user_id"]
  | op_answerCallbackQuery => ["callback_query_id"]
  | op_editMessageText => ["text"]
  | op_restrictChatMember | op_promoteChatMember => ["chat_id"; "user_id"]
  | op_pinChatMessage => ["chat_id"; "message_id"]
  | op_createNewStickerSet | op_addStickerToSet =>
      ["user_id"; "name"; "title"; "png_sticker"; "emojis"]
  | _ => []
  end.

Definition via (op : operation) : transport :=
  match op with
  | op_sendPhoto | op_sendAudio | op_sendDocument | op_sendSticker
  | op_sendVideo | op_sendVideoNote | op_sendVoice
  | op_createNewStickerSet | op_addStickerToSet => MultipartPath
  | _ => JsonPath
  end.

(** The bounds a call has to respect besides passing its required
    arguments: the name and the title of a sticker set. *)
Definition within_bounds (h : Host) (op : operation) (args : list JsVal) : Prop :=
  match op with
  | op_createNewStickerSet | op_addStickerToSet =>
      length_exceeds h (nth 1 args JUndefined) 64 = Normal false
      ∧ length_exceeds h (nth 2 args JUndefined) 64 = Normal false
  | _ => True
  end.

(** What a dispatch helper makes of the platform's reply. *)
Definition decode_reply (h : Host) (r : reply) : completion JsVal :=
  match answer r with
  | Some ex => processExchange h ex
  | None => Throw TransportException
  end.

(** A request as an operation with route [r] issues it: a POST to the
    route under the bot's base URI, with caching disabled and the content
    type that goes with the kind of body. *)
Definition own_request (token : jsstring) (r : string) (req : http_request) : Prop :=
  url req = baseURI token ++ str r
  ∧ method req = "POST"
  ∧ obj_get (headers req) "Cache-Control" = Some "no-cache, no-store"
  ∧ obj_get (headers req) "Content-Type" =
      Some (match data req with
            | TextBody _ => "application/json; charset=utf-8"
            | FormBody _ => "multipart/form-data"
            end).

(** The operations that take required parameters only, with the wire
    names of those parameters and the dispatch helper each one calls. *)
Definition plain_keys (op : operation) : option (list string * transport) :=
  match op with
  | op_sendChatAction => Some (["chat_id"; "action"], JsonPath)
  | op_kickChatMember | op_unbanChatMember | op_getChatMember =>
      Some (["chat_id"; "user_id"], JsonPath)
  | op_leaveChat | op_getChat | op_getChatAdministrators
  | op_getChatMembersCount | op_exportChatInviteLink | op_deleteChatPhoto
  | op_unpinChatMessage => Some (["chat_id"], JsonPath)
  | op_deleteMessage => Some (["chat_id"; "message_id"], JsonPath)
  | op_setChatPhoto => Some (["chat_id"; "photo"], MultipartPath)
  | op_getStickerSet => Some (["name"], JsonPath)
  | op_uploadStickerFile => Some (["user_id"; "png_sticker"], MultipartPath)
  | op_deleteStickerFromSet => Some (["sticker"], JsonPath)
  | _ => None
  end.

(** The operations whose second argument is an upload and whose guard
    tests the first two arguments. *)
Definition upload_operations : list operation :=
  [op_sendPhoto; op_sendAudio; op_sendDocument; op_sendSticker; op_sendVideo;
   op_sendVideoNote; op_sendVoice; op_setChatPhoto; op_uploadStickerFile].

(** The integer a value denotes, when it is an integral finite number. *)
Definition integer_value (v : JsVal) : option Z :=
  match v with
  | JNum (Fin q) => if Qintegral q then Some (Qnum q / QDen q) else None
  | _ => None
  end.


(** The function that [getHighestUpdateId] hands to [reduce]. *)
Definition highest_step_fn (h : Host)
  : completion JsVal → JsVal → completion JsVal :=
  fun acc update =>
    let! max := acc in
    let! id := get_prop h update "update_id" in
    Normal (if js_gt h id max then id else max).

(** * Properties *)

(** ** The envelope decoder *)

Lemma invalid_payload_never payload : invalid_payload payload = false.
Proof. unfold invalid_payload. by rewrite andb_false_r. Qed.

Section Decoder.

Context (h : Host).

Lemma processExchange_parsed raw fields :
  JSON_parse h raw = Some (JObj fields) →
  processExchange h (Exchange 200 raw) =
    if strict_eq_true (default JUndefined (obj_get fields "ok"))
    then Normal (default JUndefined (obj_get fields "result"))
    else Throw (CouldNotParse
                  (ApiCodeError (default JUndefined (obj_get fields "error_code"))
                     (default JUndefined (obj_get fields "description")))).
Proof.
  intros Hparse. unfold processExchange. cbn [status content].
  rewrite Hparse. cbn.
  by destruct (strict_eq_true _).
Qed.

(** An envelope whose [ok] is [true] yields its [result]. *)
Lemma processExchange_ok_envelope raw fields :
  JSON_parse h raw = Some (JObj fields) →
  obj_get fields "ok" = Some (JBool true) →
  processExchange h (Exchange 200 raw) =
    Normal (default JUndefined (obj_get fields "result")).
Proof.
  intros Hparse Hok. rewrite (processExchange_parsed _ _ Hparse), Hok. done.
Qed.

End Decoder.

(** C1 (as the code behaves): with status 200 and a body that parses to an
    envelope whose [ok] is not [true], the decoder does build the
    API error from the envelope's [error_code] and [description], but the
    [throw] sits inside the [try] block, so the [catch] clause replaces it:
    what the caller receives is the "Could not parse JSON response" error
    wrapping it, of the decode kind and not of the API kind. *)
Theorem processExchange_error_envelope_rewrapped
  (h : Host) (raw : jsstring) (fields : list (string * JsVal)) :
  JSON_parse h raw = Some (JObj fields) →
  strict_eq_true (default JUndefined (obj_get fields "ok")) = false →
  ∃ e, processExchange h (Exchange 200 raw) = Throw e
       ∧ e = CouldNotParse
               (ApiCodeError (default JUndefined (obj_get fields "error_code"))
                  (default JUndefined (obj_get fields "description")))
       ∧ kind_of e = DecodeError
       ∧ kind_of e ≠ ApiError.
Proof.
  intros Hparse Hok. eexists. split.
  - rewrite (processExchange_parsed _ _ _ Hparse), Hok. reflexivity.
  - by repeat split.
Qed.

Lemma processExchange_error_envelope_rewrapped_witness :
  ∃ e, processExchange sample_host (Exchange 200 error_body) = Throw e
       ∧ e = CouldNotParse (ApiCodeError (num 400) (JStr (str "Bad Request")))
       ∧ kind_of e = DecodeError
       ∧ kind_of e ≠ ApiError.
Proof.
  apply (processExchange_error_envelope_rewrapped sample_host error_body
           [("ok", JBool false); ("error_code", num 400);
            ("description", JStr (str "Bad Request"))]).
  - reflexivity.
  - reflexivity.
Defined.

Example processExchange_ok_example :
  processExchange sample_host (Exchange 200 ok_body) = Normal (JObj [("id", num 1)]).
Proof. reflexivity. Qed.

(** C5: an exchange whose status is not 200 makes the decoder throw the
    status error, which carries the status and the raw body; the result is
    the same for every platform, so the JSON parser has no part in it. *)
Theorem processExchange_status_not_200 (h : Host) (ex : exchange) :
  status ex ≠ 200 →
  processExchange h ex = Throw (StatusError (status ex) (content ex))
  ∧ kind_of (StatusError (status ex) (content ex)) = TransportError
  ∧ ∀ h' : Host, processExchange h' ex = processExchange h ex.
Proof.
  intros Hst.
  assert (Hall : ∀ g, processExchange g ex = Throw (StatusError (status ex) (content ex))).
  { intros g. unfold processExchange.
    destruct (Z.eqb_spec (status ex) 200) as [E|_]; [contradiction | done]. }
  split; [apply Hall | split; [done |]].
  intros h'. by rewrite !Hall.
Qed.

Lemma processExchange_status_not_200_witness :
  processExchange sample_host (Exchange 404 (str "Not Found")) =
    Throw (StatusError 404 (str "Not Found"))
  ∧ kind_of (StatusError 404 (str "Not Found")) = TransportError
  ∧ ∀ h' : Host, processExchange h' (Exchange 404 (str "Not Found")) =
                 processExchange sample_host (Exchange 404 (str "Not Found")).
Proof.
  apply (processExchange_status_not_200 sample_host (Exchange 404 (str "Not Found"))).
  simpl. lia.
Defined.

(** ** The two dispatch helpers *)

Lemma close_if_open_spec v w :
  close_if_open v w =
    (Normal tt, World (sent w) (list_to_set (upload_sids [("", v)]) ∪ closed w)
                  (next_sid w)).
Proof.
  destruct w as [sn cl nx].
  destruct v; cbn; try (do 2 f_equal; set_solver).
  unfold bind, stream_closed, stream_close, ret. cbn.
  case_bool_decide; cbn; do 2 f_equal; set_solver.
Qed.

Lemma for_each_close_spec (kvs : list (string * JsVal)) w :
  for_each kvs (fun kv => close_if_open kv.2) w =
    (Normal tt, World (sent w) (list_to_set (upload_sids kvs) ∪ closed w)
                  (next_sid w)).
Proof.
  revert w. induction kvs as [|[k v] kvs IH]; intros w.
  - destruct w. cbn. do 2 f_equal. set_solver.
  - cbn [for_each]. unfold bind at 1. cbn [snd].
    rewrite close_if_open_spec, IH. cbn [sent closed next_sid].
    do 2 f_equal. unfold upload_sids. cbn.
    destruct v; cbn; set_solver.
Qed.

Section Dispatch.

Context (h : Host) (token : jsstring).

(** [_request] issues exactly one request and touches no stream of its
    own. *)
Lemma _request_spec path payload w :
  _request h token path payload w =
    let r := request h (json_post h token path payload) in
    (match answer r with
     | Some ex => processExchange h ex
     | None => Throw TransportException
     end,
     World (sent w ++ [json_post h token path payload])
       (list_to_set (drained r) ∪ closed w) (next_sid w)).
Proof.
  unfold _request. rewrite invalid_payload_never.
  unfold bind, perform, lift. cbn. by destruct (answer _).
Qed.

(** [_requestMultipart] issues exactly one request and, whatever the
    outcome, leaves closed every stream held by an upload descriptor of the
    payload. *)
Lemma _requestMultipart_spec path payload w :
  _requestMultipart h token path payload w =
    let req := multipart_post token path (multipart_parts h payload) in
    let r := request h req in
    (match answer r with
     | Some ex => processExchange h ex
     | None => Throw TransportException
     end,
     World (sent w ++ [req])
       (list_to_set (upload_sids (own_props h payload))
          ∪ (list_to_set (drained r) ∪ closed w))
       (next_sid w)).
Proof.
  unfold _requestMultipart. rewrite invalid_payload_never.
  unfold try_finally, bind, perform, lift. cbn.
  destruct (answer _); rewrite for_each_close_spec; reflexivity.
Qed.

End Dispatch.

(** ** Validation in the operations *)

Section Validation.

Context (h : Host) (token : jsstring).

Lemma js_gt_num (a b : Z) : js_gt h (num a) (num b) = (b <? a).
Proof.
  unfold js_gt, js_lt, num. cbn. unfold Qltb. cbn. by rewrite !Z.mul_1_r.
Qed.

Lemma length_exceeds_string (s : jsstring) (n : Z) :
  length_exceeds h (JStr s) n = Normal (n <? Z.of_nat (length s)).
Proof.
  unfold length_exceeds.
  change (get_prop h (JStr s) "length") with (Normal (num (Z.of_nat (length s)))).
  cbn [cbind]. by rewrite js_gt_num.
Qed.

(** A non-null value has a [length] to compare, so the comparison does not
    throw. *)
Lemma length_exceeds_total (v : JsVal) (n : Z) :
  nullish v = false → ∃ b, length_exceeds h v n = Normal b.
Proof. destruct v; intros Hn; try discriminate; cbn; eauto. Qed.

(** Every operation that tests its required parameters rejects a call in
    which one of them is null or undefined, and leaves the world as it was:
    no request has been issued.  The three operations left out are the ones
    whose guard does not test the parameter: [setWebhook] has no guard on
    [url], [getFile] reads an unbound identifier, [editMessageCaption]
    tests the opposite condition. *)
Lemma missing_required_rejected (op : operation) (args : list JsVal) (i : nat) (w : world) :
  op ≠ op_setWebhook → op ≠ op_getFile → op ≠ op_editMessageCaption →
  (i < required op)%nat →
  nullish (nth i args JUndefined) = true →
  call h token op args w = (Throw (Insufficient (route op)), w).
Proof.
  intros H1 H2 H3 Hi Hnull.
  destruct op; try contradiction; cbn [required] in Hi; try lia;
    cbn [call route];
    repeat (destruct i as [|i]; [| try lia]);
    try lia.
  all: try (match goal with
            | |- ?f _ _ _ _ _ _ _ _ _ = _ => unfold f
            | |- ?f _ _ _ _ _ _ _ _ = _ => unfold f
            | |- ?f _ _ _ _ _ _ _ = _ => unfold f
            | |- ?f _ _ _ _ _ _ = _ => unfold f
            | |- ?f _ _ _ _ _ = _ => unfold f
            | |- ?f _ _ _ _ = _ => unfold f
            end).
  all: try (rewrite Hnull; rewrite ?orb_true_r; reflexivity).
  all: unfold bind, lift, cor, cbind.
  all: repeat match goal with
         | |- context [nullish ?v] =>
             lazymatch v with
             | nth _ _ _ =>
                 let E := fresh "E" in
                 destruct (nullish v) eqn:E; [reflexivity || (try discriminate) |]
             end
         | |- context [length_exceeds h ?v ?n] =>
             let b := fresh "b" in
             let Hb := fresh "Hb" in
             destruct (length_exceeds_total v n ltac:(assumption)) as [b Hb];
             rewrite Hb; destruct b; [reflexivity |]
         end.
  all: try discriminate.
  all: try reflexivity.
  destruct (nth 1 args JUndefined); try discriminate; reflexivity.
Qed.

End Validation.

(** C2 (as the code behaves): [getFile] does not test its [fileId]
    parameter.  Its guard reads the identifier [getFile], which neither the
    function nor the module binds, so every call, with or without a
    [fileId], ends in a ReferenceError before any request is issued; the
    "Insufficient parameters" error is never thrown. *)
Theorem getFile_guard_reads_unbound_identifier
  (h : Host) (token : jsstring) (fileId : JsVal) (w : world) :
  getFile h token fileId w = (Throw (ReferenceError "getFile"), w)
  ∧ kind_of (ReferenceError "getFile") ≠ ValidationError
  ∧ call h token op_getFile [JNull] w ≠ (Throw (Insufficient (route op_getFile)), w).
Proof. split; [reflexivity | split; discriminate]. Qed.

(** C6: a title or description longer than 255 code units, and a sticker-set
    name or title longer than 64, is rejected with the operation's
    "Insufficient parameters" error whatever the other arguments are, and
    the world is left as it was: no request has been issued. *)
Theorem overlong_string_rejected
  (h : Host) (token : jsstring) (s : jsstring) (w : world) :
  ((255 < length s)%nat →
     (∀ chatId, setChatTitle h token chatId (JStr s) w =
                  (Throw (Insufficient "/setChatTitle"), w))
     ∧ (∀ chatId, setChatDescription h token chatId (JStr s) w =
                    (Throw (Insufficient "/setChatDescription"), w)))
  ∧ ((64 < length s)%nat →
     (∀ userId title pngSticker emojis options,
        createNewStickerSet h token userId (JStr s) title pngSticker emojis options w =
          (Throw (Insufficient "/createNewStickerSet"), w))
     ∧ (∀ userId name pngSticker emojis options,
          createNewStickerSet h token userId name (JStr s) pngSticker emojis options w =
            (Throw (Insufficient "/createNewStickerSet"), w))
     ∧ (∀ userId title pngSticker emojis options,
          addStickerToSet h token userId (JStr s) title pngSticker emojis options w =
            (Throw (Insufficient "/addStickerToSet"), w))
     ∧ (∀ userId name pngSticker emojis options,
          addStickerToSet h token userId name (JStr s) pngSticker emojis options w =
            (Throw (Insufficient "/addStickerToSet"), w))).
Proof.
  split.
  - intros Hlen.
    assert (Hgt : (255 <? Z.of_nat (length s)) = true) by (apply Z.ltb_lt; lia).
    split; intros chatId.
    + unfold setChatTitle, bind, lift, cor, cbind.
      rewrite length_exceeds_string, Hgt. by destruct (nullish chatId).
    + unfold setChatDescription, bind, lift, cor, cbind.
      rewrite length_exceeds_string, Hgt. by destruct (nullish chatId).
  - intros Hlen.
    assert (Hgt : (64 <? Z.of_nat (length s)) = true) by (apply Z.ltb_lt; lia).
    split; [| split; [| split]]; intros userId other pngSticker emojis options.
    1, 3: unfold createNewStickerSet, addStickerToSet, bind, lift, cor, cbind;
          rewrite length_exceeds_string, Hgt; by destruct (nullish userId).
    all: unfold createNewStickerSet, addStickerToSet, bind, lift, cor, cbind;
         rewrite length_exceeds_string, Hgt;
         destruct (nullish userId); [done |];
         destruct (nullish other) eqn:Hn; [done |];
         destruct (length_exceeds_total h other 64 Hn) as [b ->];
         by destruct b.
Qed.

Lemma overlong_string_rejected_witness :
  (255 < length (replicate 256 65%N))%nat
  ∧ (64 < length (replicate 256 65%N))%nat
  ∧ setChatTitle sample_host sample_token (num 1) (JStr (replicate 256 65%N))
      fresh_world = (Throw (Insufficient "/setChatTitle"), fresh_world)
  ∧ createNewStickerSet sample_host sample_token (num 1)
      (JStr (replicate 256 65%N)) (JStr (str "t")) JNull JNull JUndefined fresh_world =
      (Throw (Insufficient "/createNewStickerSet"), fresh_world).
Proof.
  assert (H64 : (64 < length (replicate 256 65%N))%nat) by (vm_compute; lia).
  assert (H255 : (255 < length (replicate 256 65%N))%nat) by (vm_compute; lia).
  destruct (overlong_string_rejected sample_host sample_token
              (replicate 256 65%N) fresh_world) as [Hlong Hshort].
  destruct (Hlong H255) as [Htitle _].
  destruct (Hshort H64) as [Hname _].
  split; [exact H255 | split; [exact H64 | split]].
  - exact (Htitle (num 1)).
  - exact (Hname (num 1) (JStr (str "t")) JNull JNull JUndefined).
Defined.

(** C7: with a sticker that is not null, [setStickerPositionInSet] rejects
    every position that is not an integer and every negative position
    without issuing a request, and for position 0 it hands the payload
    [{sticker, position}] to [_request], which posts it as JSON. *)
Theorem setStickerPositionInSet_position
  (h : Host) (token : jsstring) (sticker : JsVal) (w : world) :
  nullish sticker = false →
  (∀ position, is_integer position = false →
     setStickerPositionInSet h token sticker position w =
       (Throw (Insufficient "/setStickerPositionInSet"), w))
  ∧ (∀ position, is_negative position = true →
       setStickerPositionInSet h token sticker position w =
         (Throw (Insufficient "/setStickerPositionInSet"), w))
  ∧ setStickerPositionInSet h token sticker (num 0) w =
      _request h token "/setStickerPositionInSet"
        (JObj [("sticker", sticker); ("position", num 0)]) w
  ∧ sent (setStickerPositionInSet h token sticker (num 0) w).2 =
      sent w ++ [json_post h token "/setStickerPositionInSet"
                   (JObj [("sticker", sticker); ("position", num 0)])].
Proof.
  intros Hs. unfold setStickerPositionInSet. rewrite Hs. cbn [orb].
  split; [| split; [| split]].
  - intros position Hint.
    assert (isSafeInteger position = false) as ->; [| done].
    destruct position as [| | |[]| | | | | | |]; try done.
    cbn [isSafeInteger is_integer] in *. by rewrite Hint.
  - intros position Hneg.
    destruct position as [| | |[]| | | | | | |]; try done.
    destruct (isSafeInteger _); [| done]. cbn [negb orb].
    change (js_lt h (JNum (Fin q)) (num 0)) with (Qltb q (inject_Z 0)).
    cbn [is_negative] in Hneg. by rewrite Hneg.
  - assert (isSafeInteger (num 0) = true) as -> by (vm_compute; reflexivity).
    reflexivity.
  - assert (isSafeInteger (num 0) = true) as -> by (vm_compute; reflexivity).
    change (js_lt h (num 0) (num 0)) with false. cbn [negb orb].
    by rewrite _request_spec.
Qed.

Lemma setStickerPositionInSet_position_witness :
  setStickerPositionInSet sample_host sample_token (JStr (str "CAAD")) (JNum (Fin (1 # 2)))
    fresh_world = (Throw (Insufficient "/setStickerPositionInSet"), fresh_world)
  ∧ setStickerPositionInSet sample_host sample_token (JStr (str "CAAD")) (num (-1))
      fresh_world = (Throw (Insufficient "/setStickerPositionInSet"), fresh_world)
  ∧ sent (setStickerPositionInSet sample_host sample_token (JStr (str "CAAD")) (num 0)
            fresh_world).2 =
      [json_post sample_host sample_token "/setStickerPositionInSet"
         (JObj [("sticker", JStr (str "CAAD")); ("position", num 0)])].
Proof.
  destruct (setStickerPositionInSet_position sample_host sample_token
              (JStr (str "CAAD")) fresh_world eq_refl) as (Hint & Hneg & _ & Hsent).
  split; [apply Hint; vm_compute; reflexivity
         | split; [apply Hneg; vm_compute; reflexivity | exact Hsent]].
Defined.

(** No path through a dispatch helper ends in an "Insufficient parameters"
    error: that error always comes from an operation's own guard. *)
Lemma processExchange_not_insufficient (h : Host) (ex : exchange) (r : string) :
  processExchange h ex ≠ Throw (Insufficient r).
Proof.
  unfold processExchange. destruct (negb _); [discriminate |].
  unfold try_catch. destruct (cbind _ _); discriminate.
Qed.

Lemma _request_not_insufficient
  (h : Host) (token : jsstring) (path : string) (payload : JsVal) (w : world) (r : string) :
  (_request h token path payload w).1 ≠ Throw (Insufficient r).
Proof.
  rewrite _request_spec. cbn.
  destruct (answer _); [apply processExchange_not_insufficient | discriminate].
Qed.

(** C9: [editMessageCaption] throws its "Insufficient parameters" error
    exactly when [options] is truthy, and then issues no request; when
    [options] is falsy (absent in particular) the call is the JSON dispatch
    of the imported [objects] module, and the one request it posts has the
    serialised module as its body, whatever [options] was. *)
Theorem editMessageCaption_inverted_guard
  (h : Host) (token : jsstring) (options : JsVal) (w : world) :
  ((editMessageCaption h token options w).1 = Throw (Insufficient "/editMessageCaption")
   ↔ truthy options = true)
  ∧ editMessageCaption h token options w =
      (if truthy options then (Throw (Insufficient "/editMessageCaption"), w)
       else _request h token "/editMessageCaption" objects w)
  ∧ sent (editMessageCaption h token options w).2 =
      (if truthy options then sent w
       else sent w ++ [json_post h token "/editMessageCaption" objects])
  ∧ data (json_post h token "/editMessageCaption" objects) =
      TextBody (JSON_stringify h objects).
Proof.
  unfold editMessageCaption.
  split; [| split; [| split]].
  - destruct (truthy options); [done |].
    split; [| discriminate].
    intros Hc. by apply _request_not_insufficient in Hc.
  - by destruct (truthy options).
  - destruct (truthy options); [done |]. by rewrite _request_spec.
  - reflexivity.
Qed.

(** A caller who passes even the empty mapping is rejected, and a caller who
    passes nothing posts the module. *)
Example editMessageCaption_examples :
  editMessageCaption sample_host sample_token (JObj []) fresh_world =
    (Throw (Insufficient "/editMessageCaption"), fresh_world)
  ∧ sent (editMessageCaption sample_host sample_token JUndefined fresh_world).2 =
      [json_post sample_host sample_token "/editMessageCaption" objects].
Proof. split; reflexivity. Qed.

(** C10: with a certificate that is not null [setWebhook] takes the JSON
    path and the payload holds [url] alone, so the certificate is not sent;
    with the certificate null or undefined it takes the multipart path and
    the payload holds both [url] and the absent [cert], each sent as a text
    part. *)
Theorem setWebhook_paths
  (h : Host) (token : jsstring) (url cert : JsVal) (w : world) :
  setWebhook h token url cert w =
    (if nullish cert
     then _requestMultipart h token "/setWebhook" (JObj [("url", url); ("cert", cert)]) w
     else _request h token "/setWebhook" (JObj [("url", url)]) w)
  ∧ sent (setWebhook h token url cert w).2 =
      sent w ++
        [if nullish cert
         then multipart_post token "/setWebhook"
                [("url", to_part h url);
                 ("cert", TextPart (inl (js_String h cert)) "utf-8" JUndefined)]
         else json_post h token "/setWebhook" (JObj [("url", url)])]
  ∧ obj_get [("url", url)] "cert" = None
  ∧ obj_get [("url", url); ("cert", cert)] "url" = Some url
  ∧ obj_get [("url", url); ("cert", cert)] "cert" = Some cert.
Proof.
  unfold setWebhook.
  split; [| split; [| done]].
  - by destruct (nullish cert).
  - destruct (nullish cert) eqn:Hc; cbn [negb].
    + rewrite _requestMultipart_spec. cbn [snd sent]. do 2 f_equal.
      by destruct cert.
    + by rewrite _request_spec.
Qed.

Example setWebhook_examples :
  sent (setWebhook sample_host sample_token (JStr (str "https://example.org/hook"))
          (JMultipart (JStr (str "cert.pem")) (Stream 3 false)) fresh_world).2 =
    [json_post sample_host sample_token "/setWebhook"
       (JObj [("url", JStr (str "https://example.org/hook"))])]
  ∧ (∃ parts,
        data <$> sent (setWebhook sample_host sample_token
                         (JStr (str "https://example.org/hook")) JUndefined fresh_world).2 =
          [FormBody parts]
        ∧ fst <$> parts = ["url"; "cert"]).
Proof. split; [reflexivity | eexists; split; reflexivity]. Qed.

(** ** The highest update identifier *)

Section HighestUpdateId.

Context (h : Host).

(** One step of the reduction on integer identifiers keeps the larger. *)
Lemma highest_step (m z : Z) :
  (if js_gt h (num z) (num m) then num z else num m) = num (Z.max m z).
Proof.
  rewrite js_gt_num. destruct (Z.ltb_spec m z).
  - by rewrite Z.max_r by lia.
  - by rewrite Z.max_l by lia.
Qed.

(** On updates whose [update_id] is an integer the reduction is the fold of
    [Z.max] from 0. *)
Lemma getHighestUpdateId_fold (updates : list JsVal) (ids : list Z) :
  Forall2 (fun u z => get_prop h u "update_id" = Normal (num z)) updates ids →
  getHighestUpdateId h (JArr updates) = Normal (num (fold_left Z.max ids 0)).
Proof.
  unfold getHighestUpdateId. generalize 0 as m.
  intros m Hids. revert m.
  induction Hids as [|u z us zs Hu _ IH]; intros m; [reflexivity |].
  cbn [fold_left cbind]. rewrite Hu. cbn [cbind].
  rewrite highest_step. apply IH.
Qed.

Lemma fold_max_ge (ids : list Z) (m : Z) :
  m ≤ fold_left Z.max ids m ∧ ∀ z, z ∈ ids → z ≤ fold_left Z.max ids m.
Proof.
  revert m. induction ids as [|a ids IH]; intros m; cbn [fold_left].
  - split; [lia | intros z Hz; by apply elem_of_nil in Hz].
  - destruct (IH (Z.max m a)) as [Hm Hall]. split; [lia |].
    intros z [->|Hz]%elem_of_cons; [lia | by apply Hall].
Qed.

Lemma fold_max_attained (ids : list Z) (m : Z) :
  fold_left Z.max ids m = m ∨ fold_left Z.max ids m ∈ ids.
Proof.
  revert m. induction ids as [|a ids IH]; intros m; cbn [fold_left]; [by left |].
  destruct (IH (Z.max m a)) as [E|Hin].
  - rewrite E. destruct (Z.max_spec m a) as [[_ ->]|[_ ->]];
      [right; by left | by left].
  - right. by right.
Qed.

End HighestUpdateId.

(** C8: on a sequence of update objects, whose [update_id]s are
    non-negative integers, [getHighestUpdateId] returns a number that is at
    least every [update_id] of the sequence, is 0 for the empty sequence
    and is one of the [update_id]s otherwise: the maximum.  In particular
    it returns 0 on [[]] and 7 on the identifiers 3, 7, 5. *)
Theorem getHighestUpdateId_is_maximum
  (h : Host) (updates : list JsVal) (ids : list Z) :
  Forall2 (fun u z => get_prop h u "update_id" = Normal (num z)) updates ids →
  Forall (fun z => 0 ≤ z) ids →
  (∃ m, getHighestUpdateId h (JArr updates) = Normal (num m)
        ∧ (∀ z, z ∈ ids → z ≤ m)
        ∧ (ids = [] → m = 0)
        ∧ (ids ≠ [] → m ∈ ids))
  ∧ getHighestUpdateId h (JArr []) = Normal (num 0)
  ∧ getHighestUpdateId h
      (JArr [JObj [("update_id", num 3)]; JObj [("update_id", num 7)];
             JObj [("update_id", num 5)]]) = Normal (num 7).
Proof.
  intros Hids Hpos. split; [| split].
  - exists (fold_left Z.max ids 0). split; [| split; [| split]].
    + by apply getHighestUpdateId_fold.
    + apply fold_max_ge.
    + by intros ->.
    + intros Hne. destruct (fold_max_attained ids 0) as [E|Hin]; [| done].
      rewrite E. destruct ids as [|a ids]; [done |].
      assert (Ha : 0 ≤ a) by (by inversion Hpos).
      destruct (fold_max_ge (a :: ids) 0) as [_ Hall].
      assert (a ≤ 0) by (rewrite <- E; apply Hall; by left).
      assert (a = 0) as -> by lia. by left.
  - reflexivity.
  - apply (getHighestUpdateId_fold h _ [3; 7; 5]).
    repeat constructor.
Qed.

Lemma getHighestUpdateId_is_maximum_witness :
  ∃ m, getHighestUpdateId sample_host
         (JArr [JObj [("update_id", num 3)]; JObj [("update_id", num 7)];
                JObj [("update_id", num 5)]]) = Normal (num m)
       ∧ (∀ z, z ∈ [3; 7; 5] → z ≤ m)
       ∧ m ∈ [3; 7; 5].
Proof.
  destruct (getHighestUpdateId_is_maximum sample_host
              [JObj [("update_id", num 3)]; JObj [("update_id", num 7)];
               JObj [("update_id", num 5)]] [3; 7; 5])
    as [(m & Hm & Hge & _ & Hin) _].
  - repeat constructor.
  - repeat constructor; lia.
  - exists m. split; [exact Hm | split; [exact Hge | by apply Hin]].
Defined.

(** ** Streams and the multipart dispatch *)

(** What the constructor returns: a descriptor around the caller's own
    stream, or around a stream it has just opened from the path. *)
Lemma MultipartStream_result (h : Host) (name source ms : JsVal) (w w1 : world) :
  MultipartStream h name source w = (Normal ms, w1) →
  ∃ s, ms = JMultipart name s
       ∧ ((source = JStream s ∧ w1 = w)
          ∨ (∃ p, source = JPath p ∧ s = Stream (next_sid w) false
                  ∧ closed w1 = closed w ∧ sent w1 = sent w)).
Proof.
  unfold MultipartStream.
  destruct (nullish name || _) eqn:Hg; [discriminate |].
  destruct source; cbn in Hg; rewrite ?orb_true_r in Hg; try discriminate.
  - intros [= <- <-]. eauto.
  - unfold bind, openRaw, throw, ret.
    destruct (openRaw_fails h p); [discriminate |].
    intros [= <- <-]. eexists. split; [done |]. right. eauto.
Qed.

(** C3 (amended): whatever the outcome of a multipart dispatch, a decoded
    result, an error raised by the decoder or an exception raised by the
    transport, every stream held by an upload descriptor of the payload is
    closed when the call returns, whether the constructor opened it from a
    path or the caller supplied it; the other streams are as the transport
    left them. *)
Theorem multipart_dispatch_closes_descriptor_streams
  (h : Host) (token : jsstring) (path : string) (payload : JsVal) (w : world) :
  let out := _requestMultipart h token path payload w in
  let r := request h (multipart_post token path (multipart_parts h payload)) in
  out.1 = match answer r with
          | Some ex => processExchange h ex
          | None => Throw TransportException
          end
  ∧ (∀ key name s,
       (key, JMultipart name s) ∈ own_props h payload → sid s ∈ closed out.2)
  ∧ (∀ key name source ms w0,
       MultipartStream h name source w0 = (Normal ms, w) →
       (key, ms) ∈ own_props h payload →
       ∃ s, ms = JMultipart name s ∧ sid s ∈ closed out.2)
  ∧ (∀ n, n ∈ closed out.2 ↔
          n ∈ upload_sids (own_props h payload) ∨ n ∈ drained r ∨ n ∈ closed w).
Proof.
  intros out r. subst out r. rewrite _requestMultipart_spec. cbn [fst snd closed].
  assert (Hheld : ∀ key name s,
             (key, JMultipart name s) ∈ own_props h payload →
             sid s ∈ upload_sids (own_props h payload)).
  { intros key name s Hin. unfold upload_sids. apply list_elem_of_omap.
    exists (key, JMultipart name s). by split. }
  split; [reflexivity | split; [| split]].
  - intros key name s Hin. apply Hheld in Hin. set_solver.
  - intros key name source ms w0 Hms Hin.
    destruct (MultipartStream_result _ _ _ _ _ _ Hms) as (s & -> & _).
    exists s. split; [done |]. apply Hheld in Hin. set_solver.
  - intros n. set_solver.
Qed.

Lemma multipart_dispatch_closes_descriptor_streams_witness :
  (∀ key name s,
     (key, JMultipart name s) ∈
       own_props sample_host
         (JObj [("chat_id", num 1);
                ("photo", JMultipart (JStr (str "a.jpg")) (Stream 0 false))]) →
     sid s ∈ closed
       (_requestMultipart sample_host sample_token "/sendPhoto"
          (JObj [("chat_id", num 1);
                 ("photo", JMultipart (JStr (str "a.jpg")) (Stream 0 false))])
          (World [] ∅ 1)).2)
  ∧ ("photo", JMultipart (JStr (str "a.jpg")) (Stream 0 false)) ∈
      own_props sample_host
        (JObj [("chat_id", num 1);
               ("photo", JMultipart (JStr (str "a.jpg")) (Stream 0 false))])
  ∧ MultipartStream sample_host (JStr (str "a.jpg")) (JPath (str "a.jpg")) fresh_world =
      (Normal (JMultipart (JStr (str "a.jpg")) (Stream 0 false)), World [] ∅ 1).
Proof.
  split; [| split].
  - apply (multipart_dispatch_closes_descriptor_streams sample_host sample_token
             "/sendPhoto"
             (JObj [("chat_id", num 1);
                    ("photo", JMultipart (JStr (str "a.jpg")) (Stream 0 false))])
             (World [] ∅ 1)).
  - cbn. apply elem_of_cons; right; apply elem_of_cons; by left.
  - reflexivity.
Defined.

(** C3 as stated fails in its second half: a stream the caller opened and
    passed to the constructor is closed by the dispatch like any other,
    even when it was open before and the transport did not close it. *)
Lemma caller_stream_closed_by_dispatch :
  ¬ (∀ (h : Host) (token : jsstring) (path : string) (name ms : JsVal)
       (s : stream) (w0 w1 : world),
       MultipartStream h name (JStream s) w0 = (Normal ms, w1) →
       sid s ∉ closed w1 →
       sid s ∉ drained (request h (multipart_post token path
                                     (multipart_parts h (JObj [("photo", ms)])))) →
       sid s ∉ closed (_requestMultipart h token path (JObj [("photo", ms)]) w1).2).
Proof.
  intros Hclaim.
  apply (Hclaim sample_host sample_token "/sendPhoto" (JStr (str "a.jpg"))
           (JMultipart (JStr (str "a.jpg")) (Stream 7 false)) (Stream 7 false)
           fresh_world fresh_world).
  - reflexivity.
  - cbn. set_solver.
  - cbn. set_solver.
  - rewrite _requestMultipart_spec. cbn. set_solver.
Qed.

(** The same through a public operation. *)
Example sendPhoto_closes_caller_stream :
  (7%nat ∉ closed fresh_world)
  ∧ (7%nat ∈ closed (sendPhoto sample_host sample_token (num 1)
                       (JMultipart (JStr (str "a.jpg")) (Stream 7 false)) JUndefined
                       fresh_world).2).
Proof.
  split; [set_solver |].
  eapply bool_decide_unpack. vm_compute. exact I.
Qed.

(** ** Payload construction *)

Section ObjectLemmas.

Context {A : Type}.

Lemma obj_get_set (k k' : string) (v : A) (fields : list (string * A)) :
  obj_get (obj_set k' v fields) k =
    if String.eqb k k' then Some v else obj_get fields k.
Proof.
  induction fields as [|[k0 v0] fields IH]; cbn.
  - by destruct (String.eqb k k').
  - destruct (String.eqb_spec k' k0) as [->|Hne]; cbn.
    + by destruct (String.eqb k k0).
    + destruct (String.eqb_spec k k0) as [->|Hne'].
      * destruct (String.eqb_spec k0 k'); [congruence | done].
      * apply IH.
Qed.

Lemma obj_get_app (l1 l2 : list (string * A)) (k : string) :
  obj_get (l1 ++ l2) k =
    match obj_get l1 k with Some v => Some v | None => obj_get l2 k end.
Proof.
  induction l1 as [|[k0 v0] l1 IH]; cbn; [done |].
  by destruct (String.eqb k k0).
Qed.

(** Setting properties one after the other: the last write to a key wins,
    and a key never written keeps what the object had. *)
Lemma obj_get_fold_set (l acc : list (string * A)) (k : string) :
  obj_get (fold_left (fun acc kv => obj_set kv.1 kv.2 acc) l acc) k =
    match obj_get (reverse l) k with Some v => Some v | None => obj_get acc k end.
Proof.
  revert acc. induction l as [|[k0 v0] l IH]; intros acc; cbn [fold_left]; [done |].
  rewrite IH, reverse_cons, obj_get_app, obj_get_set. cbn.
  destruct (obj_get (reverse l) k); [done |].
  by destruct (String.eqb k k0).
Qed.

Lemma obj_get_Some_elem (l : list (string * A)) (k : string) (v : A) :
  obj_get l k = Some v → (k, v) ∈ l.
Proof.
  induction l as [|[k0 v0] l IH]; cbn; [done |].
  destruct (String.eqb_spec k k0) as [->|_].
  - intros [= ->]. by left.
  - intros Hg. right. by apply IH.
Qed.

Lemma obj_get_None_notin (l : list (string * A)) (k : string) :
  obj_get l k = None → k ∉ l.*1.
Proof.
  induction l as [|[k0 v0] l IH]; cbn; [intros _; by apply not_elem_of_nil |].
  destruct (String.eqb_spec k k0) as [->|Hne]; [done |].
  intros Hg [?|?]%elem_of_cons; [done | by apply IH].
Qed.

Lemma obj_get_NoDup (l : list (string * A)) (k : string) (v : A) :
  NoDup l.*1 → (k, v) ∈ l → obj_get l k = Some v.
Proof.
  induction l as [|[k0 v0] l IH]; cbn; [by intros _ ?%elem_of_nil |].
  intros [Hnotin Hnd]%NoDup_cons [[= -> ->]|Hin]%elem_of_cons.
  - by rewrite String.eqb_refl.
  - destruct (String.eqb_spec k k0) as [->|_]; [| by apply IH].
    exfalso. apply Hnotin. apply list_elem_of_fmap. by exists (k0, v).
Qed.

(** With distinct property names the order of the list does not matter. *)
Lemma obj_get_reverse (l : list (string * A)) (k : string) :
  NoDup l.*1 → obj_get (reverse l) k = obj_get l k.
Proof.
  intros Hnd. destruct (obj_get l k) as [v|] eqn:Hg.
  - apply obj_get_NoDup.
    + by rewrite fmap_reverse, reverse_Permutation.
    + apply elem_of_reverse. by apply obj_get_Some_elem.
  - destruct (obj_get (reverse l) k) as [v|] eqn:Hr; [| done].
    apply obj_get_Some_elem in Hr. rewrite elem_of_reverse in Hr.
    apply obj_get_None_notin in Hg. exfalso. apply Hg.
    apply list_elem_of_fmap. by exists (k, v).
Qed.

End ObjectLemmas.

Section Merge.

Context (h : Host).

(** The precedence of [merge]: a property of the optional mapping wins over
    the base property of the same name. *)
Lemma merge_lookup (base : list (string * JsVal)) (options : JsVal) (k : string) :
  NoDup base.*1 → NoDup (own_props h options).*1 →
  ∃ fields, merge h (JObj base) options = JObj fields
            ∧ obj_get fields k =
                match obj_get (own_props h options) k with
                | Some v => Some v
                | None => obj_get base k
                end.
Proof.
  intros Hb Ho. eexists. split; [reflexivity |].
  rewrite obj_get_fold_set. cbn [own_props obj_get].
  rewrite reverse_app, obj_get_app, !obj_get_reverse by done.
  by destruct (obj_get (own_props h options) k), (obj_get base k).
Qed.

(** A falsy value has no properties, so [options || {}] merges like
    [options]. *)
Lemma merge_js_or (base options : JsVal) :
  merge h base (js_or options (JObj [])) = merge h base options.
Proof.
  unfold js_or. destruct (truthy options) eqn:Ht; [done |].
  unfold merge. do 3 f_equal.
  destruct options as [| |b|n|s| | | | | |]; try done.
  cbn in Ht. apply negb_false_iff, bool_decide_eq_true in Ht. by subst.
Qed.

End Merge.

Lemma wire_keys_NoDup (op : operation) : NoDup (wire_keys op).
Proof. destruct op; eapply bool_decide_unpack; vm_compute; exact I. Qed.

Lemma zip_keys_NoDup (keys : list string) (args : list JsVal) :
  NoDup keys → NoDup (zip keys args).*1.
Proof.
  intros Hnd. revert args. induction Hnd as [|k keys Hk Hnd IH]; intros args.
  - constructor.
  - destruct args as [|a args]; [constructor |]. cbn. constructor; [| apply IH].
    intros Hin. apply Hk.
    apply list_elem_of_fmap in Hin as ([k' a'] & -> & Hin).
    apply elem_of_zip_l in Hin. done.
Qed.

(** C4 (as the code behaves): over all 24 operations with an [options]
    parameter, called with the arguments before [options] present and
    within bounds.  The 21 operations that merge hand to their dispatch
    helper [merge(base, options)], the base being those arguments under
    their wire names, and in the merged payload a property of [options]
    overrides the base property of the same name; [getUpdates] and
    [editMessageReplyMarkup], which have no base, hand over [options]
    itself.  [editMessageCaption] breaks the rule: given any mapping as
    [options], the empty one included, it throws "Insufficient parameters"
    and issues no request, and whatever [options] is it never dispatches
    them; when they are falsy it dispatches the [objects] module. *)
Theorem options_payload_by_operation
  (h : Host) (token : jsstring) (op : operation) (args : list JsVal)
  (options : JsVal) (w : world) (k : string) :
  takes_options op = true →
  length args = length (wire_keys op) →
  Forall (fun a => nullish a = false) args →
  within_bounds h op args →
  (options_required op = true → nullish options = false) →
  NoDup (own_props h options).*1 →
  ∃ fields,
    merge h (JObj (zip (wire_keys op) args)) options = JObj fields
    ∧ obj_get fields k =
        match obj_get (own_props h options) k with
        | Some v => Some v
        | None => obj_get (zip (wire_keys op) args) k
        end
    ∧ match use_of_options op with
      | MergesOptions =>
          call h token op (args ++ [options]) w =
            dispatch h token (via op) (route op) (JObj fields) w
      | ForwardsOptions =>
          call h token op (args ++ [options]) w =
            _request h token (route op) options w
      | RefusesOptions =>
          call h token op (args ++ [options]) w =
            (if truthy options then (Throw (Insufficient (route op)), w)
             else _request h token (route op) objects w)
          ∧ (instanceof_Object options = true →
             call h token op (args ++ [options]) w =
               (Throw (Insufficient (route op)), w))
      end.
Proof.
  intros Hop Hlen Hargs Hbounds Hreq Hnd.
  destruct (merge_lookup h (zip (wire_keys op) args) options k)
    as (fields & Hmerge & Hget);
    [apply zip_keys_NoDup, wire_keys_NoDup | done |].
  exists fields. split; [done | split; [done |]].
  rewrite <- Hmerge. clear Hmerge Hget Hnd.
  destruct op; try discriminate Hop; cbn [wire_keys length] in Hlen;
    repeat (destruct args as [|? args]; try discriminate Hlen);
    repeat match goal with
      | H : Forall _ (_ :: _) |- _ =>
          apply Forall_cons in H; destruct H as [? H]
      end;
    cbn [use_of_options call app nth route via dispatch wire_keys];
    cbn [within_bounds nth] in Hbounds;
    cbn [options_required] in Hreq;
    try specialize (Hreq eq_refl).
  (* editMessageCaption *)
  all: try (unfold editMessageCaption; split;
            [by destruct (truthy options)
            | intros Hobj; by destruct options]).
  all: match goal with
       | |- ?f _ _ _ _ _ _ _ _ _ = _ => unfold f
       | |- ?f _ _ _ _ _ _ _ _ = _ => unfold f
       | |- ?f _ _ _ _ _ _ _ = _ => unfold f
       | |- ?f _ _ _ _ _ _ = _ => unfold f
       | |- ?f _ _ _ _ _ = _ => unfold f
       | |- ?f _ _ _ _ = _ => unfold f
       | |- ?f _ _ _ = _ => unfold f
       end.
  all: lazymatch type of Hbounds with
       | _ ∧ _ =>
           destruct Hbounds as [Hb1 Hb2];
           unfold bind, lift, cor, cbind; rewrite Hb1, Hb2
       | _ => idtac
       end.
  all: repeat match goal with
         | H : nullish ?v = false |- _ => rewrite H; clear H
         end.
  all: rewrite ?merge_js_or; reflexivity.
Qed.

Lemma options_payload_by_operation_witness :
  call sample_host sample_token op_editMessageCaption
    ([] ++ [JObj [("chat_id", num 1); ("message_id", num 2);
                  ("caption", JStr (str "new caption"))]])
    fresh_world =
    (Throw (Insufficient "/editMessageCaption"), fresh_world)
  ∧ ∃ fields,
      call sample_host sample_token op_sendMessage
        ([num 1; JStr (str "base text")]
           ++ [JObj [("text", JStr (str "override"));
                     ("parse_mode", JStr (str "HTML"))]])
        fresh_world =
        dispatch sample_host sample_token JsonPath "/sendMessage" (JObj fields)
          fresh_world
      ∧ obj_get fields "text" = Some (JStr (str "override"))
      ∧ obj_get fields "chat_id" = Some (num 1).
Proof.
  split.
  - destruct (options_payload_by_operation sample_host sample_token
                op_editMessageCaption []
                (JObj [("chat_id", num 1); ("message_id", num 2);
                       ("caption", JStr (str "new caption"))])
                fresh_world "caption")
      as (fields & _ & _ & _ & Hthrows).
    + reflexivity.
    + reflexivity.
    + constructor.
    + exact I.
    + discriminate.
    + eapply bool_decide_unpack. vm_compute. exact I.
    + apply Hthrows. reflexivity.
  - destruct (options_payload_by_operation sample_host sample_token op_sendMessage
                [num 1; JStr (str "base text")]
                (JObj [("text", JStr (str "override"));
                       ("parse_mode", JStr (str "HTML"))])
                fresh_world "text")
      as (fields & Hmerge & Htext & Hcall).
    + reflexivity.
    + reflexivity.
    + repeat constructor.
    + exact I.
    + discriminate.
    + eapply bool_decide_unpack. vm_compute. exact I.
    + exists fields. split; [exact Hcall | split; [exact Htext |]].
      injection Hmerge as <-. reflexivity.
Defined.

(** [getUpdates] has no base payload: it forwards [options] as it is. *)
Lemma getUpdates_forwards_options
  (h : Host) (token : jsstring) (options : JsVal) (w : world) :
  sent (getUpdates h token options w).2 = sent w ++ [json_post h token "/getUpdates" options].
Proof. unfold getUpdates. by rewrite _request_spec. Qed.

(** * Further properties *)

(** ** The upload descriptor *)

(** X1: The constructor throws its "Invalid parameters" error exactly when the
    name is null or undefined or the source is neither a stream nor a path,
    and then leaves the world untouched; a caller's stream is wrapped as it
    is, text mode included, without opening or closing anything. *)
Theorem MultipartStream_validation
  (h : Host) (name source : JsVal) (w : world) :
  ((MultipartStream h name source w).1 = Throw InvalidMultipartStream
   ↔ nullish name = true
     ∨ (instanceof_Stream source = false ∧ instanceof_Path source = false))
  ∧ ((MultipartStream h name source w).1 = Throw InvalidMultipartStream →
     (MultipartStream h name source w).2 = w)
  ∧ (∀ s, nullish name = false →
          MultipartStream h name (JStream s) w = (Normal (JMultipart name s), w)).
Proof.
  unfold MultipartStream.
  split; [| split].
  - destruct (nullish name); cbn [orb].
    + split; [by left | done].
    + destruct source; cbn; try (split; [by right | done]).
      * split; [discriminate | by intros [|[? _]]].
      * split; [| by intros [|[_ ?]]].
        unfold bind, openRaw, throw, ret.
        destruct (openRaw_fails h p); cbn; discriminate.
  - destruct (nullish name || _) eqn:Hg; [done |].
    destruct source; cbn in Hg; rewrite ?orb_true_r in Hg; try discriminate.
    unfold bind, openRaw, throw, ret.
    destruct (openRaw_fails h p); cbn; discriminate.
  - intros s ->. reflexivity.
Qed.

Lemma MultipartStream_validation_witness :
  MultipartStream sample_host (JStr (str "a.jpg"))
    (JStream (Stream 4 true)) fresh_world =
    (Normal (JMultipart (JStr (str "a.jpg")) (Stream 4 true)), fresh_world)
  ∧ (MultipartStream sample_host JNull (JStream (Stream 4 true)) fresh_world).1 =
      Throw InvalidMultipartStream
  ∧ (MultipartStream sample_host (JStr (str "a.jpg")) (JStr (str "/tmp/a.jpg"))
       fresh_world).2 = fresh_world.
Proof.
  destruct (MultipartStream_validation sample_host (JStr (str "a.jpg"))
              (JStream (Stream 4 true)) fresh_world) as (_ & _ & Hwrap).
  destruct (MultipartStream_validation sample_host JNull
              (JStream (Stream 4 true)) fresh_world) as (Hiff & _ & _).
  destruct (MultipartStream_validation sample_host (JStr (str "a.jpg"))
              (JStr (str "/tmp/a.jpg")) fresh_world) as (Hiff' & Hsame & _).
  split; [apply Hwrap; reflexivity | split].
  - apply Hiff. by left.
  - apply Hsame, Hiff'. by right.
Defined.

(** A descriptor built from a path holds a binary stream that the
    constructor has just opened under the next free identifier; when the
    platform cannot open the path the constructor propagates its error and
    no descriptor exists. *)
Lemma MultipartStream_from_path
  (h : Host) (name : JsVal) (p : jsstring) (w : world) :
  nullish name = false →
  MultipartStream h name (JPath p) w =
    if openRaw_fails h p then (Throw IOError, w)
    else (Normal (JMultipart name (Stream (next_sid w) false)),
          World (sent w) (closed w) (S (next_sid w))).
Proof.
  intros Hn. unfold MultipartStream. rewrite Hn. cbn.
  unfold bind, openRaw, throw, ret. by destruct (openRaw_fails h p).
Qed.

(** ** The envelope decoder, all outcomes *)

Lemma processExchange_cases (h : Host) (ex : exchange) :
  (∃ v, processExchange h ex = Normal v ∧ status ex = 200)
  ∨ (processExchange h ex = Throw (StatusError (status ex) (content ex))
     ∧ status ex ≠ 200)
  ∨ (∃ e, processExchange h ex = Throw (CouldNotParse e) ∧ status ex = 200).
Proof.
  unfold processExchange.
  destruct (Z.eqb_spec (status ex) 200) as [E|E]; cbn [negb].
  - unfold try_catch.
    destruct (cbind _ _) as [v|e]; [left | right; right]; eauto.
  - right; left. done.
Qed.

(** X2: The decoder has three outcomes and no other: a value, the status error
    when the status is not 200, and the "could not parse" error when the
    status is 200.  With status 200 every failure, whatever its cause,
    reaches the caller as the "could not parse" error; the API error never
    leaves the decoder on its own. *)
Theorem processExchange_outcomes (h : Host) (ex : exchange) :
  (∃ v, processExchange h ex = Normal v ∧ status ex = 200)
  ∨ (processExchange h ex = Throw (StatusError (status ex) (content ex))
     ∧ status ex ≠ 200)
  ∨ (∃ e, processExchange h ex = Throw (CouldNotParse e) ∧ status ex = 200).
Proof. apply processExchange_cases. Qed.

(** X3: With status 200, a body that is not JSON makes the decoder throw the
    "could not parse" error around the parser's SyntaxError; a body that is
    the JSON [null] makes it throw the same error around the TypeError of
    reading [ok] from null; and a body that is any other JSON value without
    a true [ok], a number or a string for instance, around an API error
    whose code and description are what the value has under those names. *)
Theorem processExchange_decode_failures (h : Host) (raw : jsstring) :
  (JSON_parse h raw = None →
   processExchange h (Exchange 200 raw) = Throw (CouldNotParse SyntaxError))
  ∧ (∀ v, JSON_parse h raw = Some v → nullish v = true →
          processExchange h (Exchange 200 raw) = Throw (CouldNotParse TypeError))
  ∧ (∀ v, JSON_parse h raw = Some v → nullish v = false →
          get_prop h v "ok" ≠ Normal (JBool true) →
          ∃ code description,
            get_prop h v "error_code" = Normal code
            ∧ get_prop h v "description" = Normal description
            ∧ processExchange h (Exchange 200 raw) =
                Throw (CouldNotParse (ApiCodeError code description))).
Proof.
  unfold processExchange. cbn [status content]. cbn [Z.eqb negb Pos.eqb].
  split; [| split].
  - by intros ->.
  - intros v -> Hn. by destruct v.
  - intros v -> Hn Hok.
    assert (Hget : ∀ k, ∃ x, get_prop h v k = Normal x).
    { intros k. destruct v; try discriminate Hn; cbn; eauto. }
    destruct (Hget "ok") as [ok Eok], (Hget "error_code") as [c Ec],
      (Hget "description") as [d Ed].
    exists c, d. split; [done | split; [done |]].
    cbn [cbind try_catch]. rewrite Eok. cbn [cbind].
    destruct (strict_eq_true ok) eqn:Hs.
    + destruct ok as [| |[]| | | | | | | |]; try discriminate Hs.
      by rewrite Eok in Hok.
    + by rewrite Ec, Ed.
Qed.

Lemma processExchange_decode_failures_witness :
  processExchange sample_host (Exchange 200 (str "<html>")) =
    Throw (CouldNotParse SyntaxError).
Proof.
  apply (processExchange_decode_failures sample_host (str "<html>")).
  reflexivity.
Defined.

(** ** The dispatch helpers, end to end *)

Lemma dispatch_spec
  (h : Host) (token : jsstring) (t : transport) (path : string)
  (payload : JsVal) (w : world) :
  (dispatch h token t path payload w).1 ≠ Throw InvalidPayload
  ∧ ∃ req, sent (dispatch h token t path payload w).2 = sent w ++ [req]
           ∧ own_request token path req
           ∧ (dispatch h token t path payload w).1 = decode_reply h (request h req)
           ∧ next_sid (dispatch h token t path payload w).2 = next_sid w.
Proof.
  assert (Hdec : ∀ r, decode_reply h r ≠ Throw InvalidPayload).
  { intros r. unfold decode_reply. destruct (answer r) as [ex|]; [| discriminate].
    destruct (processExchange_cases h ex) as [(v & -> & _)|[[-> _]|(e & -> & _)]];
      discriminate. }
  destruct t; cbn [dispatch].
  - rewrite _request_spec. cbn [fst snd sent next_sid]. split; [apply Hdec |].
    eexists. split; [reflexivity |]. by repeat split.
  - rewrite _requestMultipart_spec. cbn [fst snd sent next_sid]. split; [apply Hdec |].
    eexists. split; [reflexivity |]. by repeat split.
Qed.


(** X5: The outcome of a dispatch follows the reply: a 200 reply whose body
    parses to an envelope with a true [ok] gives the envelope's [result]
    ([undefined] when there is none); an exception of the transport and a
    status other than 200 reach the caller unchanged. *)
Theorem dispatch_outcome_by_reply
  (h : Host) (token : jsstring) (t : transport) (path : string)
  (payload : JsVal) (w : world) (ex : option exchange) :
  (∀ req, own_request token path req → answer (request h req) = ex) →
  (dispatch h token t path payload w).1 =
    match ex with
    | None => Throw TransportException
    | Some (Exchange st raw) =>
        if st =? 200 then
          match JSON_parse h raw with
          | Some (JObj fields) =>
              if strict_eq_true (default JUndefined (obj_get fields "ok"))
              then Normal (default JUndefined (obj_get fields "result"))
              else processExchange h (Exchange st raw)
          | _ => processExchange h (Exchange st raw)
          end
        else Throw (StatusError st raw)
    end.
Proof.
  intros Hreply.
  destruct (dispatch_spec h token t path payload w)
    as (_ & req & _ & Hown & -> & _).
  unfold decode_reply. rewrite (Hreply req Hown).
  destruct ex as [[st raw]|]; [| done].
  destruct (Z.eqb_spec st 200) as [->|Hne].
  - destruct (JSON_parse h raw) as [[]|] eqn:Hp; try done.
    rewrite (processExchange_parsed _ _ _ Hp).
    by destruct (strict_eq_true _).
  - unfold processExchange. cbn [status content].
    destruct (Z.eqb_spec st 200); [done | done].
Qed.

Lemma dispatch_outcome_by_reply_witness :
  (dispatch sample_host sample_token JsonPath "/getMe" JUndefined fresh_world).1 =
    Normal (JObj [("id", num 1)]).
Proof.
  apply (dispatch_outcome_by_reply sample_host sample_token JsonPath "/getMe"
           JUndefined fresh_world (Some (Exchange 200 ok_body))).
  intros req _. reflexivity.
Defined.

(** ** Every operation is one guarded exchange *)

Section Outcome.

Context (h : Host) (token : jsstring).






End Outcome.




Lemma missing_required_rejected_witness :
  call sample_host sample_token op_forwardMessage
    [num 1; num 2; JNull; JObj []] fresh_world =
    (Throw (Insufficient "/forwardMessage"), fresh_world).
Proof.
  apply (missing_required_rejected sample_host sample_token op_forwardMessage
           [num 1; num 2; JNull; JObj []] 2 fresh_world);
    [discriminate | discriminate | discriminate | cbn; lia | reflexivity].
Defined.

(** X9: An operation that takes required parameters only, called with all of
    them present, hands to its dispatch helper the object that holds the
    arguments under their wire names, in order; the number of wire names is
    the number of required parameters. *)
Theorem plain_operation_payload
  (h : Host) (token : jsstring) (op : operation) (keys : list string)
  (t : transport) (args : list JsVal) (w : world) :
  plain_keys op = Some (keys, t) →
  length args = length keys →
  Forall (fun a => nullish a = false) args →
  required op = length keys
  ∧ call h token op args w =
      dispatch h token t (route op) (JObj (zip keys args)) w.
Proof.
  intros Hop Hlen Hargs.
  destruct op; try discriminate Hop; cbn in Hop; injection Hop as <- <-;
    (split; [reflexivity |]);
    cbn [length] in Hlen;
    repeat (destruct args as [|? args]; try discriminate Hlen);
    repeat match goal with
      | H : Forall _ (_ :: _) |- _ =>
          apply Forall_cons in H; destruct H as [? H]
      end;
    cbn [call nth route dispatch].
  all: match goal with
       | |- ?f _ _ _ _ _ = _ => unfold f
       | |- ?f _ _ _ _ = _ => unfold f
       end.
  all: repeat match goal with
         | H : nullish ?v = false |- _ => rewrite H; clear H
         end.
  all: reflexivity.
Qed.

Lemma plain_operation_payload_witness :
  call sample_host sample_token op_kickChatMember [num 10; num 20] fresh_world =
    dispatch sample_host sample_token JsonPath "/kickChatMember"
      (JObj [("chat_id", num 10); ("user_id", num 20)]) fresh_world.
Proof.
  apply (plain_operation_payload sample_host sample_token op_kickChatMember
           ["chat_id"; "user_id"] JsonPath [num 10; num 20] fresh_world).
  - reflexivity.
  - reflexivity.
  - repeat constructor.
Defined.

(** ** Bounds, exactly *)

Lemma Qintegral_value (q : Q) :
  Qintegral q = true → Qnum q = QDen q * (Qnum q / QDen q).
Proof.
  unfold Qintegral. intros Hm%Z.eqb_eq.
  by apply Z_div_exact_full_2.
Qed.

(** X10: [setStickerPositionInSet] accepts a call exactly when the sticker is
    not null and the position is an integral number from 0 to 2^53 - 1; it
    then posts [{sticker, position}] as JSON, and in every other case
    throws before any request: fractions, negative numbers, integers from
    2^53 on, NaN, the infinities and every value that is not a number. *)
Theorem setStickerPositionInSet_accepts_exactly
  (h : Host) (token : jsstring) (sticker position : JsVal) (w : world) :
  setStickerPositionInSet h token sticker position w =
    if negb (nullish sticker)
       && match integer_value position with
          | Some z => (0 <=? z) && (z <=? 2 ^ 53 - 1)
          | None => false
          end
    then _request h token "/setStickerPositionInSet"
           (JObj [("sticker", sticker); ("position", position)]) w
    else (Throw (Insufficient "/setStickerPositionInSet"), w).
Proof.
  unfold setStickerPositionInSet.
  destruct (nullish sticker); cbn [orb negb andb]; [done |].
  destruct position as [| | |[| | |q]| | | | | | |]; try done.
  cbn [isSafeInteger integer_value].
  change (js_lt h (JNum (Fin q)) (num 0)) with (Qltb q (inject_Z 0)).
  unfold Qltb. cbn [Qnum Qden inject_Z]. rewrite Z.mul_1_r, Z.mul_0_l.
  destruct (Qintegral q) eqn:Hint; cbn [andb negb orb]; [| done].
  apply Qintegral_value in Hint.
  set (z := Qnum q / QDen q) in *.
  assert (Hd : 0 < QDen q) by done.
  assert (Hsign : (Qnum q <? 0) = (z <? 0)).
  { destruct (Z.ltb_spec (Qnum q) 0), (Z.ltb_spec z 0); try done; nia. }
  rewrite Hsign.
  destruct (Z.leb_spec (Z.abs z) (2 ^ 53 - 1)), (Z.ltb_spec z 0),
    (Z.leb_spec 0 z), (Z.leb_spec z (2 ^ 53 - 1)); cbn; try done; lia.
Qed.

Example setStickerPositionInSet_upper_bound :
  setStickerPositionInSet sample_host sample_token (JStr (str "CAAD"))
    (num (2 ^ 53)) fresh_world =
    (Throw (Insufficient "/setStickerPositionInSet"), fresh_world)
  ∧ sent (setStickerPositionInSet sample_host sample_token (JStr (str "CAAD"))
            (num (2 ^ 53 - 1)) fresh_world).2 ≠ [].
Proof. split; by vm_compute. Qed.

(** X11: On a string the length guards are exact: a chat title or description
    is rejected when the chat is absent or the string has more than 255
    code units and is dispatched otherwise, the empty string included; the
    same holds for the name and the title of a sticker set with 64. *)
Theorem string_bounds_exact
  (h : Host) (token : jsstring) (w : world) :
  (∀ chatId s,
     setChatTitle h token chatId (JStr s) w =
       if nullish chatId || (255 <? length s)%nat
       then (Throw (Insufficient "/setChatTitle"), w)
       else _request h token "/setChatTitle"
              (JObj [("chat_id", chatId); ("title", JStr s)]) w)
  ∧ (∀ chatId s,
       setChatDescription h token chatId (JStr s) w =
         if nullish chatId || (255 <? length s)%nat
         then (Throw (Insufficient "/setChatDescription"), w)
         else _request h token "/setChatDescription"
                (JObj [("chat_id", chatId); ("description", JStr s)]) w)
  ∧ (∀ userId name title pngSticker emojis options,
       createNewStickerSet h token userId (JStr name) (JStr title) pngSticker
         emojis options w =
         if nullish userId || (64 <? length name)%nat || (64 <? length title)%nat
            || nullish pngSticker || nullish emojis
         then (Throw (Insufficient "/createNewStickerSet"), w)
         else _requestMultipart h token "/createNewStickerSet"
                (merge h (JObj [("user_id", userId); ("name", JStr name);
                                ("title", JStr title);
                                ("png_sticker", pngSticker); ("emojis", emojis)])
                   options) w)
  ∧ (∀ userId name title pngSticker emojis options,
       addStickerToSet h token userId (JStr name) (JStr title) pngSticker
         emojis options w =
         if nullish userId || (64 <? length name)%nat || (64 <? length title)%nat
            || nullish pngSticker || nullish emojis
         then (Throw (Insufficient "/addStickerToSet"), w)
         else _requestMultipart h token "/addStickerToSet"
                (merge h (JObj [("user_id", userId); ("name", JStr name);
                                ("title", JStr title);
                                ("png_sticker", pngSticker); ("emojis", emojis)])
                   options) w).
Proof.
  assert (Hlt : ∀ (n : Z) (s : jsstring) (m : nat),
             n = Z.of_nat m →
             length_exceeds h (JStr s) n = Normal (m <? length s)%nat).
  { intros n s m ->. rewrite length_exceeds_string. f_equal.
    destruct (Z.ltb_spec (Z.of_nat m) (Z.of_nat (length s))),
      (Nat.ltb_spec m (length s)); try done; lia. }
  split; [| split; [| split]].
  - intros chatId s. unfold setChatTitle, bind, lift, cor, cbind.
    rewrite (Hlt 255 s 255%nat eq_refl).
    destruct (nullish chatId); [done |]. cbn [nullish orb].
    by destruct (255 <? length s)%nat.
  - intros chatId s. unfold setChatDescription, bind, lift, cor, cbind.
    rewrite (Hlt 255 s 255%nat eq_refl).
    destruct (nullish chatId); [done |]. cbn [nullish orb].
    by destruct (255 <? length s)%nat.
  - intros userId name title pngSticker emojis options.
    unfold createNewStickerSet, bind, lift, cor, cbind.
    rewrite (Hlt 64 name 64%nat eq_refl), (Hlt 64 title 64%nat eq_refl).
    destruct (nullish userId); [done |]. cbn [nullish orb].
    destruct (64 <? length name)%nat; [done |].
    destruct (64 <? length title)%nat; [done |]. cbn [orb].
    by destruct (nullish pngSticker), (nullish emojis).
  - intros userId name title pngSticker emojis options.
    unfold addStickerToSet, bind, lift, cor, cbind.
    rewrite (Hlt 64 name 64%nat eq_refl), (Hlt 64 title 64%nat eq_refl).
    destruct (nullish userId); [done |]. cbn [nullish orb].
    destruct (64 <? length name)%nat; [done |].
    destruct (64 <? length title)%nat; [done |]. cbn [orb].
    by destruct (nullish pngSticker), (nullish emojis).
Qed.

(** ** Streams outside the dispatch *)

(** X12: A descriptor built from a path and passed to an upload operation whose
    first argument is missing: the operation throws before it reaches
    [_requestMultipart], so nothing closes the stream that the constructor
    opened; it stays open. *)
Theorem upload_left_open_on_rejection
  (h : Host) (token : jsstring) (op : operation) (name chat ms : JsVal)
  (p : jsstring) (rest : list JsVal) (w w1 : world) :
  op ∈ upload_operations →
  MultipartStream h name (JPath p) w = (Normal ms, w1) →
  next_sid w ∉ closed w →
  nullish chat = true →
  ∃ s, ms = JMultipart name s
       ∧ sid s = next_sid w
       ∧ call h token op (chat :: ms :: rest) w1 =
           (Throw (Insufficient (route op)), w1)
       ∧ sid s ∉ closed (call h token op (chat :: ms :: rest) w1).2.
Proof.
  intros Hop Hms Hfresh Hchat.
  destruct (MultipartStream_result _ _ _ _ _ _ Hms)
    as (s & -> & [[[=] _]|(p' & _ & -> & Hcl & _)]).
  assert (Hcall : call h token op (chat :: JMultipart name (Stream (next_sid w) false) :: rest) w1 =
                    (Throw (Insufficient (route op)), w1)).
  { unfold upload_operations in Hop.
    repeat (apply elem_of_cons in Hop as [->|Hop];
            [cbn [call nth route];
             match goal with |- ?f _ _ _ _ _ _ = _ => unfold f
                           | |- ?f _ _ _ _ _ = _ => unfold f end;
             by rewrite Hchat |]).
    by apply elem_of_nil in Hop. }
  eexists. split; [done | split; [done | split; [exact Hcall |]]].
  rewrite Hcall. cbn [snd sid]. by rewrite Hcl.
Qed.

Lemma upload_left_open_on_rejection_witness :
  ∃ s, JMultipart (JStr (str "a.jpg")) (Stream 0 false) =
         JMultipart (JStr (str "a.jpg")) s
       ∧ sid s = next_sid fresh_world
       ∧ call sample_host sample_token op_sendPhoto
           (JUndefined :: JMultipart (JStr (str "a.jpg")) (Stream 0 false) :: [])
           (World [] ∅ 1) =
           (Throw (Insufficient (route op_sendPhoto)), World [] ∅ 1)
       ∧ sid s ∉ closed
           (call sample_host sample_token op_sendPhoto
              (JUndefined :: JMultipart (JStr (str "a.jpg")) (Stream 0 false) :: [])
              (World [] ∅ 1)).2.
Proof.
  apply (upload_left_open_on_rejection sample_host sample_token op_sendPhoto
           (JStr (str "a.jpg")) JUndefined
           (JMultipart (JStr (str "a.jpg")) (Stream 0 false))
           (str "/tmp/a.jpg") [] fresh_world (World [] ∅ 1)).
  - apply elem_of_cons. by left.
  - reflexivity.
  - cbn. set_solver.
  - reflexivity.
Defined.

(** ** The parts of a multipart body *)

Lemma obj_set_fresh {A} (k : string) (v : A) (fields : list (string * A)) :
  k ∉ fields.*1 → obj_set k v fields = fields ++ [(k, v)].
Proof.
  induction fields as [|[k0 v0] fields IH]; cbn; [done |].
  intros Hnotin. apply not_elem_of_cons in Hnotin as [Hne Hnotin].
  destruct (String.eqb_spec k k0); [done |]. by rewrite IH.
Qed.

(** X13: For a payload object with distinct property names the body has one
    part per property, in the same order and under the same name: a file
    part carrying the descriptor's name for an upload descriptor, reading
    its stream as text when the stream is a text stream and as bytes
    otherwise, and for any other value a text part holding [String(value)]
    without a file name. *)
Theorem multipart_parts_of_object
  (h : Host) (fields : list (string * JsVal)) :
  NoDup fields.*1 →
  multipart_parts h (JObj fields) = (fun kv => (kv.1, to_part h kv.2)) <$> fields
  ∧ (∀ name s, to_part h (JMultipart name s) =
                 if text_mode s then TextPart (inr s) "utf-8" name
                 else BinaryPart s name)
  ∧ (∀ v, instanceof_MultipartStream v = false →
          to_part h v = TextPart (inl (js_String h v)) "utf-8" JUndefined).
Proof.
  intros Hnd. split; [| split; [done | by intros []]].
  unfold multipart_parts. cbn [own_props].
  assert (Hgen : ∀ acc : list (string * part),
             (∀ k, k ∈ fields.*1 → k ∉ acc.*1) →
             fold_left (fun acc kv => obj_set kv.1 (to_part h kv.2) acc) fields acc =
               acc ++ ((fun kv => (kv.1, to_part h kv.2)) <$> fields)).
  { induction fields as [|[k v] fields IH]; intros acc Hdisj; cbn [fold_left fmap list_fmap].
    - by rewrite app_nil_r.
    - apply NoDup_cons in Hnd as [Hk Hnd].
      rewrite obj_set_fresh by (apply Hdisj; by left).
      rewrite IH; [by rewrite <- app_assoc | done |].
      intros k' Hk'. rewrite fmap_app. cbn. intros [Hin|Hin]%elem_of_app.
      + apply (Hdisj k'); [by right | done].
      + apply list_elem_of_singleton in Hin as ->. done. }
  rewrite Hgen; [done |]. intros k _. cbn. apply not_elem_of_nil.
Qed.

Lemma multipart_parts_of_object_witness :
  multipart_parts sample_host
    (JObj [("chat_id", num 1);
           ("photo", JMultipart (JStr (str "a.jpg")) (Stream 0 false))]) =
    [("chat_id", TextPart (inl (str "[object Object]")) "utf-8" JUndefined);
     ("photo", BinaryPart (Stream 0 false) (JStr (str "a.jpg")))].
Proof.
  apply (multipart_parts_of_object sample_host
           [("chat_id", num 1);
            ("photo", JMultipart (JStr (str "a.jpg")) (Stream 0 false))]).
  eapply bool_decide_unpack. vm_compute. exact I.
Defined.

(** ** The update helpers *)

(** X14: [getChatIdFromMessage] on an object: a [message] that is not
    [undefined] decides, and the identifier is read from its [chat] even
    when the envelope has a [chat] of its own; without a [message] the
    envelope's own [chat] is read; without either the result is [null].
    An identifier that the chat does not have comes back as [undefined]. *)
Theorem getChatIdFromMessage_cases
  (h : Host) (fields : list (string * JsVal)) :
  (∀ mf cf,
     obj_get fields "message" = Some (JObj mf) →
     obj_get mf "chat" = Some (JObj cf) →
     getChatIdFromMessage h (JObj fields) =
       Normal (default JUndefined (obj_get cf "id")))
  ∧ (∀ cf,
       default JUndefined (obj_get fields "message") = JUndefined →
       obj_get fields "chat" = Some (JObj cf) →
       getChatIdFromMessage h (JObj fields) =
         Normal (default JUndefined (obj_get cf "id")))
  ∧ (default JUndefined (obj_get fields "message") = JUndefined →
     default JUndefined (obj_get fields "chat") = JUndefined →
     getChatIdFromMessage h (JObj fields) = Normal JNull).
Proof.
  unfold getChatIdFromMessage. cbn [get_prop own_props cbind].
  split; [| split].
  - intros mf cf -> Hc. cbn. by rewrite Hc.
  - intros cf -> Hc. cbn. by rewrite Hc.
  - by intros -> ->.
Qed.

Lemma getChatIdFromMessage_cases_witness :
  getChatIdFromMessage sample_host
    (JObj [("message", JObj [("chat", JObj [("id", num 42)])]);
           ("chat", JObj [("id", num 9)])]) = Normal (num 42)
  ∧ getChatIdFromMessage sample_host (JObj [("chat", JObj [("id", num 9)])]) =
      Normal (num 9)
  ∧ getChatIdFromMessage sample_host (JObj []) = Normal JNull.
Proof.
  destruct (getChatIdFromMessage_cases sample_host
              [("message", JObj [("chat", JObj [("id", num 42)])]);
               ("chat", JObj [("id", num 9)])]) as (Hmsg & _ & _).
  destruct (getChatIdFromMessage_cases sample_host
              [("chat", JObj [("id", num 9)])]) as (_ & Hchat & _).
  destruct (getChatIdFromMessage_cases sample_host []) as (_ & _ & Hnone).
  split; [| split].
  - apply (Hmsg [("chat", JObj [("id", num 42)])] [("id", num 42)]); reflexivity.
  - apply (Hchat [("id", num 9)]); reflexivity.
  - apply Hnone; reflexivity.
Defined.

(** X15: [getChatIdFromMessage] does not always return an identifier or
    [null]: it throws a TypeError on an envelope that is null or undefined,
    on a [message] that is [null], on a [message] without a [chat], and on
    an envelope without a [message] whose [chat] is [null]; a usable
    [chat] on the envelope does not rescue a broken [message]. *)
Theorem getChatIdFromMessage_throws
  (h : Host) (fields : list (string * JsVal)) :
  (∀ envelope, nullish envelope = true →
               getChatIdFromMessage h envelope = Throw TypeError)
  ∧ (obj_get fields "message" = Some JNull →
     getChatIdFromMessage h (JObj fields) = Throw TypeError)
  ∧ (∀ mf, obj_get fields "message" = Some (JObj mf) →
           nullish (default JUndefined (obj_get mf "chat")) = true →
           getChatIdFromMessage h (JObj fields) = Throw TypeError)
  ∧ (default JUndefined (obj_get fields "message") = JUndefined →
     obj_get fields "chat" = Some JNull →
     getChatIdFromMessage h (JObj fields) = Throw TypeError).
Proof.
  unfold getChatIdFromMessage.
  split; [| split; [| split]].
  - by intros [] Hn.
  - cbn [get_prop own_props cbind]. by intros ->.
  - cbn [get_prop own_props cbind]. intros mf -> Hc. cbn.
    by destruct (default JUndefined (obj_get mf "chat")).
  - cbn [get_prop own_props cbind]. by intros -> ->.
Qed.

Lemma getChatIdFromMessage_throws_witness :
  getChatIdFromMessage sample_host
    (JObj [("message", JNull); ("chat", JObj [("id", num 9)])]) = Throw TypeError
  ∧ getChatIdFromMessage sample_host
      (JObj [("message", JObj [("text", JStr (str "hi"))])]) = Throw TypeError.
Proof.
  destruct (getChatIdFromMessage_throws sample_host
              [("message", JNull); ("chat", JObj [("id", num 9)])])
    as (_ & Hnull & _ & _).
  destruct (getChatIdFromMessage_throws sample_host
              [("message", JObj [("text", JStr (str "hi"))])])
    as (_ & _ & Hnochat & _).
  split.
  - apply Hnull; reflexivity.
  - apply (Hnochat [("text", JStr (str "hi"))]); reflexivity.
Defined.

(** X16: [isInlineQuery] answers true exactly when [getInlineQuery] returns
    something other than [undefined], so an [inline_query] that is [null]
    counts as an inline query; both throw a TypeError exactly on an update
    that is null or undefined. *)
Theorem isInlineQuery_agrees_with_getInlineQuery (h : Host) (update : JsVal) :
  (isInlineQuery h update = Normal true
   ↔ ∃ q, getInlineQuery h update = Normal q ∧ q ≠ JUndefined)
  ∧ (isInlineQuery h update = Normal false
     ↔ getInlineQuery h update = Normal JUndefined)
  ∧ (isInlineQuery h update = Throw TypeError ↔ nullish update = true)
  ∧ (getInlineQuery h update = Throw TypeError ↔ nullish update = true)
  ∧ isInlineQuery h (JObj [("inline_query", JNull)]) = Normal true.
Proof.
  unfold isInlineQuery, getInlineQuery.
  assert (Hcases : (nullish update = true
                    ∧ get_prop h update "inline_query" = Throw TypeError)
                   ∨ (nullish update = false
                      ∧ ∃ q, get_prop h update "inline_query" = Normal q)).
  { destruct update; cbn; eauto. }
  destruct Hcases as [[Hn ->]|[Hn [q ->]]]; rewrite Hn; cbn [cbind].
  - repeat (split; [split; [discriminate || done | by (intros (? & ? & ?) || intros ?)] |]).
    reflexivity.
  - split; [| split; [| split; [| split]]].
    + split.
      * intros [= Hd]. exists q. split; [done |]. by destruct q.
      * intros (q' & [= <-] & Hq). by destruct q.
    + split.
      * intros [= Hd]. by destruct q.
      * by intros [= ->].
    + split; discriminate.
    + split; discriminate.
    + reflexivity.
Qed.

(** ** The highest update identifier, edge cases *)

Section HighestEdges.

Context (h : Host).

Lemma get_prop_throws_TypeError (v : JsVal) (k : string) (e : thrown) :
  get_prop h v k = Throw e → e = TypeError.
Proof. destruct v; cbn; by intros [=]. Qed.

Lemma highest_fold_throw (us : list JsVal) (e : thrown) :
  fold_left (highest_step_fn h) us (Throw e) = Throw e.
Proof. induction us; [done | apply IHus]. Qed.

Lemma highest_fold_error (us : list JsVal) (acc : completion JsVal) (e : thrown) :
  (∀ e', acc = Throw e' → e' = TypeError) →
  fold_left (highest_step_fn h) us acc = Throw e → e = TypeError.
Proof.
  revert acc. induction us as [|u us IH]; intros acc Hacc; cbn [fold_left].
  - apply Hacc.
  - apply IH. intros e'. unfold highest_step_fn.
    destruct acc as [m|e0]; cbn [cbind]; [| intros [= <-]; by apply Hacc].
    destruct (get_prop h u "update_id") as [id|e1] eqn:Hg; cbn [cbind]; [done |].
    intros [= <-]. by apply get_prop_throws_TypeError in Hg.
Qed.

Lemma js_gt_undefined (m : JsVal) : js_gt h JUndefined m = false.
Proof.
  unfold js_gt, js_lt.
  assert (Hnan : ∀ a, num_lt a NaN = false) by (by intros []).
  destruct (ToPrimitive h m); apply Hnan.
Qed.

End HighestEdges.

(** X17: An update without an [update_id] does not count: wherever it stands in
    the sequence, the result is what it would be without it. *)
Theorem getHighestUpdateId_skips_missing_ids
  (h : Host) (before after : list JsVal) (u : JsVal) :
  get_prop h u "update_id" = Normal JUndefined →
  getHighestUpdateId h (JArr (before ++ u :: after)) =
    getHighestUpdateId h (JArr (before ++ after)).
Proof.
  intros Hu.
  change (fold_left (highest_step_fn h) (before ++ u :: after) (Normal (num 0)) =
          fold_left (highest_step_fn h) (before ++ after) (Normal (num 0))).
  rewrite !fold_left_app. cbn [fold_left]. f_equal.
  unfold highest_step_fn.
  destruct (fold_left _ before _) as [m|e]; [| done].
  cbn [cbind]. rewrite Hu. cbn [cbind]. by rewrite js_gt_undefined.
Qed.

Lemma getHighestUpdateId_skips_missing_ids_witness :
  getHighestUpdateId sample_host
    (JArr ([JObj [("update_id", num 3)]]
             ++ JObj [("message", JObj [])] :: [JObj [("update_id", num 7)]])) =
    getHighestUpdateId sample_host
      (JArr ([JObj [("update_id", num 3)]] ++ [JObj [("update_id", num 7)]])).
Proof.
  apply (getHighestUpdateId_skips_missing_ids sample_host
           [JObj [("update_id", num 3)]] [JObj [("update_id", num 7)]]
           (JObj [("message", JObj [])])).
  reflexivity.
Defined.

(** X18: [getHighestUpdateId] throws nothing but TypeErrors, and does throw one
    on anything that is not an array and on an array that holds a null or
    undefined element anywhere, whatever the other elements are. *)
Theorem getHighestUpdateId_type_errors (h : Host) :
  (∀ updates e, getHighestUpdateId h updates = Throw e → e = TypeError)
  ∧ (∀ updates, instanceof_Array updates = false →
                getHighestUpdateId h updates = Throw TypeError)
  ∧ (∀ before after u, nullish u = true →
       getHighestUpdateId h (JArr (before ++ u :: after)) = Throw TypeError).
Proof.
  split; [| split].
  - intros updates e. destruct updates; try (by intros [=]).
    apply (highest_fold_error h). discriminate.
  - by intros [].
  - intros before after u Hu.
    change (fold_left (highest_step_fn h) (before ++ u :: after) (Normal (num 0)) =
            Throw TypeError).
    rewrite fold_left_app. cbn [fold_left].
    destruct (fold_left _ before _) as [m|e] eqn:Hb.
    + assert (highest_step_fn h (Normal m) u = Throw TypeError) as ->
        by (by destruct u).
      apply highest_fold_throw.
    + apply highest_fold_error in Hb as ->; [| discriminate].
      cbn [highest_step_fn cbind]. apply highest_fold_throw.
Qed.

Lemma getHighestUpdateId_type_errors_witness :
  getHighestUpdateId sample_host (JObj [("update_id", num 3)]) = Throw TypeError
  ∧ getHighestUpdateId sample_host
      (JArr ([JObj [("update_id", num 3)]] ++ JNull :: [])) = Throw TypeError.
Proof.
  destruct (getHighestUpdateId_type_errors sample_host) as (_ & Hnot & Hnull).
  split; [apply Hnot | apply Hnull]; reflexivity.
Defined.

Lemma fold_max_from (ids : list Z) (m : Z) :
  fold_left Z.max ids m = Z.max m (fold_left Z.max ids 0) ∨ m < 0.
Proof.
  destruct (Z.lt_ge_cases m 0) as [|Hm]; [by right | left].
  revert m Hm. induction ids as [|a ids IH]; intros m Hm; cbn [fold_left]; [lia |].
  rewrite (IH (Z.max m a)) by lia. rewrite (IH (Z.max 0 a)) by lia. lia.
Qed.

(** X19: On updates with integer identifiers of any sign the result is never
    negative and is at least every identifier, so the result plus one is an
    offset past all of them; when all identifiers are negative the result
    is 0, which is none of them.  The result over two batches put together
    is the larger of the results over each. *)
Theorem getHighestUpdateId_offsets
  (h : Host) (us vs : list JsVal) (ids jds : list Z) :
  Forall2 (fun u z => get_prop h u "update_id" = Normal (num z)) us ids →
  Forall2 (fun u z => get_prop h u "update_id" = Normal (num z)) vs jds →
  ∃ a b,
    getHighestUpdateId h (JArr us) = Normal (num a)
    ∧ getHighestUpdateId h (JArr vs) = Normal (num b)
    ∧ 0 ≤ a
    ∧ (∀ z, z ∈ ids → z < a + 1)
    ∧ (Forall (fun z => z < 0) ids → a = 0)
    ∧ getHighestUpdateId h (JArr (us ++ vs)) = Normal (num (Z.max a b)).
Proof.
  intros Hus Hvs.
  exists (fold_left Z.max ids 0), (fold_left Z.max jds 0).
  destruct (fold_max_ge ids 0) as [Hpos Hge].
  split; [by apply getHighestUpdateId_fold |].
  split; [by apply getHighestUpdateId_fold |].
  split; [done |].
  split; [intros z Hz; specialize (Hge z Hz); lia |].
  split.
  - intros Hneg. destruct (fold_max_attained ids 0) as [|Hin]; [done |].
    rewrite Forall_forall in Hneg. specialize (Hneg _ Hin). lia.
  - rewrite (getHighestUpdateId_fold h (us ++ vs) (ids ++ jds))
      by (by apply Forall2_app).
    rewrite fold_left_app.
    destruct (fold_max_from jds (fold_left Z.max ids 0)) as [->|]; [done | lia].
Qed.

Lemma getHighestUpdateId_offsets_witness :
  ∃ a b,
    getHighestUpdateId sample_host (JArr [JObj [("update_id", num (-4))]]) =
      Normal (num a)
    ∧ getHighestUpdateId sample_host
        (JArr [JObj [("update_id", num 12)]; JObj [("update_id", num 11)]]) =
        Normal (num b)
    ∧ 0 ≤ a
    ∧ (∀ z, z ∈ [-4] → z < a + 1)
    ∧ (Forall (fun z => z < 0) [-4] → a = 0)
    ∧ getHighestUpdateId sample_host
        (JArr ([JObj [("update_id", num (-4))]]
                 ++ [JObj [("update_id", num 12)]; JObj [("update_id", num 11)]])) =
        Normal (num (Z.max a b)).
Proof.
  apply (getHighestUpdateId_offsets sample_host
           [JObj [("update_id", num (-4))]]
           [JObj [("update_id", num 12)]; JObj [("update_id", num 11)]]
           [-4] [12; 11]);
    repeat constructor.
Defined.

(** ** Operations without a guard, and an upload from start to end *)

(** X20: [getMe], [getWebhookInfo], [getUpdates] and [setWebhook] test none of
    their arguments: every call issues its request.  The first two post an
    empty body; [getUpdates] posts its options serialised, and an empty
    body when the options are absent or otherwise falsy. *)
Theorem unguarded_operations_always_dispatch
  (h : Host) (token : jsstring) (args : list JsVal) (w : world) :
  (∃ req, sent (call h token op_getMe args w).2 = sent w ++ [req]
          ∧ data req = TextBody [])
  ∧ (∃ req, sent (call h token op_getWebhookInfo args w).2 = sent w ++ [req]
            ∧ data req = TextBody [])
  ∧ (∃ req, sent (call h token op_getUpdates args w).2 = sent w ++ [req]
            ∧ data req =
                TextBody (if truthy (nth 0 args JUndefined)
                          then JSON_stringify h (nth 0 args JUndefined) else []))
  ∧ (∃ req, sent (call h token op_setWebhook args w).2 = sent w ++ [req]).
Proof.
  cbn [call]. unfold getMe, getWebhookInfo, getUpdates, setWebhook.
  split; [| split; [| split]].
  - rewrite _request_spec. eexists. split; reflexivity.
  - rewrite _request_spec. eexists. split; reflexivity.
  - rewrite _request_spec. eexists. split; reflexivity.
  - destruct (nullish (nth 1 args JUndefined)); cbn [negb];
      [rewrite _requestMultipart_spec | rewrite _request_spec];
      eexists; reflexivity.
Qed.

(** X21: A chat photo uploaded from a path, from the constructor to the end of
    the call: the constructor opens the stream, [setChatPhoto] posts one
    multipart request whose parts are the chat identifier (itself no
    descriptor) as text and the stream as a binary file part under the descriptor's name, the stream
    is closed when the call returns, whatever the reply, and the call
    returns what the decoder makes of the reply. *)
Theorem setChatPhoto_from_path
  (h : Host) (token : jsstring) (name chatId photo : JsVal) (p : jsstring)
  (w w1 : world) :
  MultipartStream h name (JPath p) w = (Normal photo, w1) →
  nullish chatId = false →
  instanceof_MultipartStream chatId = false →
  let req := multipart_post token "/setChatPhoto"
               [("chat_id", TextPart (inl (js_String h chatId)) "utf-8" JUndefined);
                ("photo", BinaryPart (Stream (next_sid w) false) name)] in
  let out := setChatPhoto h token chatId photo w1 in
  sent out.2 = sent w ++ [req]
  ∧ out.1 = decode_reply h (request h req)
  ∧ next_sid w ∈ closed out.2.
Proof.
  intros Hms Hchat Hplain req out. subst req out.
  destruct (MultipartStream_result _ _ _ _ _ _ Hms)
    as (s & -> & [[[=] _]|(p' & _ & -> & _ & Hsent)]).
  unfold setChatPhoto. rewrite Hchat. cbn [nullish orb].
  rewrite _requestMultipart_spec. cbn [fst snd sent closed].
  assert (Hparts : multipart_parts h
                     (JObj [("chat_id", chatId);
                            ("photo", JMultipart name (Stream (next_sid w) false))]) =
                   [("chat_id", TextPart (inl (js_String h chatId)) "utf-8" JUndefined);
                    ("photo", BinaryPart (Stream (next_sid w) false) name)]).
  { unfold multipart_parts. cbn. by destruct chatId. }
  rewrite Hparts, Hsent.
  split; [done | split; [done |]].
  unfold upload_sids. cbn [own_props].
  destruct chatId; try discriminate Hplain; cbn; set_solver.
Qed.

Lemma setChatPhoto_from_path_witness :
  sent (setChatPhoto sample_host sample_token (num 1)
          (JMultipart (JStr (str "a.jpg")) (Stream 0 false)) (World [] ∅ 1)).2 =
    [] ++ [multipart_post sample_token "/setChatPhoto"
             [("chat_id", TextPart (inl (js_String sample_host (num 1))) "utf-8" JUndefined);
              ("photo", BinaryPart (Stream 0 false) (JStr (str "a.jpg")))]]
  ∧ (0%nat ∈ closed (setChatPhoto sample_host sample_token (num 1)
                       (JMultipart (JStr (str "a.jpg")) (Stream 0 false))
                       (World [] ∅ 1)).2).
Proof.
  destruct (setChatPhoto_from_path sample_host sample_token (JStr (str "a.jpg"))
              (num 1) (JMultipart (JStr (str "a.jpg")) (Stream 0 false))
              (str "/tmp/a.jpg") fresh_world (World [] ∅ 1) eq_refl eq_refl eq_refl)
    as (Hsent & _ & Hclosed).
  split; [exact Hsent | exact Hclosed].
Defined.
